(** * Distributed AI Deception System: honeypot gateway and deception engine

    A shallow embedding of [src/deception.py] (virtual filesystem and
    command simulator) and of the blocking, authentication and
    per-command mediation logic of [src/honeypot.py], with the properties
    of the design specification stated and proved over it.

    Conventions of the embedding.
    - A Python [str] is a Rocq [string]; a character is a code point
      below 256.
    - A Python [dict] keyed by strings is a [gmap string _], a [set] of
      strings a [gset string], a Python [list] a [list].
    - Module globals ([BLOCKED_IPS], [GLOBAL_BLOCKED_IPS], [LOG_QUEUE])
      are the fields of an explicit state record that every operation
      receives and returns.
    - [time.time()] is an argument [now : Z] (seconds); only the order of
      instants and the addition of [BLOCK_DURATION] are ever used.
    - A raised exception is an explicit constructor of the result. *)

From Stdlib Require Import ZArith Ascii String List Lia.
From stdpp Require Import base option list gmap strings.

Local Open Scope Z_scope.

(** ** Python string primitives used by the source *)

Module PyStr.

(** [str.isspace] on one character: the white space of [str.split()]
    and [str.strip()] with no argument. *)
Definition is_space (c : ascii) : bool :=
  let n := nat_of_ascii c in
  ((9 <=? n)%nat && (n <=? 13)%nat) || ((28 <=? n)%nat && (n <=? 32)%nat)
  || (n =? 133)%nat || (n =? 160)%nat.

Definition is_char (d c : ascii) : bool := Ascii.eqb c d.

Fixpoint lstrip (p : ascii → bool) (s : string) : string :=
  match s with
  | EmptyString => EmptyString
  | String c s' => if p c then lstrip p s' else s
  end.

Fixpoint rstrip (p : ascii → bool) (s : string) : string :=
  match s with
  | EmptyString => EmptyString
  | String c s' =>
      match rstrip p s' with
      | EmptyString => if p c then EmptyString else String c EmptyString
      | r => String c r
      end
  end.

(** [s.strip()] and [s.strip(chars)] for a one-character [chars]. *)
Definition strip (p : ascii → bool) (s : string) : string :=
  rstrip p (lstrip p s).

(** [s.split(sep)] for a one-character separator: never empty, keeps
    empty fields. *)
Fixpoint split (sep : ascii) (s : string) : list string :=
  match s with
  | EmptyString => [EmptyString]
  | String c s' =>
      if Ascii.eqb c sep then EmptyString :: split sep s'
      else match split sep s' with
           | h :: t => String c h :: t
           | [] => [String c EmptyString]
           end
  end.

(** [s.split()]: maximal runs of characters that are not white space. *)
Fixpoint split_ws (s : string) : list string :=
  match s with
  | EmptyString => []
  | String c s' =>
      if is_space c then split_ws s'
      else match s' with
           | EmptyString => [String c EmptyString]
           | String c' _ =>
               if is_space c' then String c EmptyString :: split_ws s'
               else match split_ws s' with
                    | h :: t => String c h :: t
                    | [] => [String c EmptyString]
                    end
           end
  end.

(** [sep.join(l)] *)
Definition join (sep : string) (l : list string) : string :=
  String.concat sep l.

(** [s.startswith(p)] *)
Definition startswith (p s : string) : bool := String.prefix p s.

(** [s[:n]] *)
Definition take (n : nat) (s : string) : string := String.substring 0 n s.

(** [s[:-1]] *)
Fixpoint drop_last (s : string) : string :=
  match s with
  | EmptyString => EmptyString
  | String c EmptyString => EmptyString
  | String c s' => String c (drop_last s')
  end.

(** [s.replace(c, r)] for a one-character [c]. *)
Fixpoint replace_char (c : ascii) (r : string) (s : string) : string :=
  match s with
  | EmptyString => EmptyString
  | String a s' =>
      if Ascii.eqb a c then r +:+ replace_char c r s'
      else String a (replace_char c r s')
  end.

(** [x in l] for a list of strings. *)
Definition mem (x : string) (l : list string) : bool :=
  bool_decide (x ∈ l).

Definition eqb (a b : string) : bool := bool_decide (a = b).

End PyStr.

(** ** JSON values, as [response.json()] yields them *)

Module Json.

(** A number is taken to be an integer; a float takes the same branches
    (true unless zero, neither text nor an object). *)
#[warnings="-register-all"] Inductive json : Type :=
| JNull
| JBool (b : bool)
| JNum (n : Z)
| JStr (s : string)
| JArr (items : list json)
| JObj (members : list (string * json)).

(** Python truth value of a parsed JSON value. *)
Definition truthy (j : json) : bool :=
  match j with
  | JNull => false
  | JBool b => b
  | JNum n => negb (n =? 0)
  | JStr s => negb (bool_decide (s = ""))
  | JArr l => match l with [] => false | _ => true end
  | JObj l => match l with [] => false | _ => true end
  end.

(** Lookup in the members of an object; of a repeated name the parser
    keeps the last value. *)
Fixpoint lookup_member (k : string) (members : list (string * json))
  : option json :=
  match members with
  | [] => None
  | (k', v) :: rest =>
      match lookup_member k rest with
      | Some v' => Some v'
      | None => if bool_decide (k' = k) then Some v else None
      end
  end.

(** [d.get(k, default)]; [None] is the [AttributeError] raised when [d]
    is not a [dict]. *)
Definition get (d : json) (k : string) (default : json) : option json :=
  match d with
  | JObj members => Some (from_option id default (lookup_member k members))
  | _ => None
  end.

End Json.

(** ** deception.py *)

Module Deception.
Import Json.

(** A node of [FakeFilesystem.fs]: [{'type': ..., 'contents': [...]}]. *)
Record Node := mkNode { type : string; contents : list string }.

Definition dir (l : list string) : Node := mkNode "dir" l.

(** [file_contents] maps a path to whatever [deploy_decoy] was given as
    content: text ([JStr]) for every file of the constructor and of
    the tests, any JSON value for a decoy taken from an oracle reply. *)
Record FakeFilesystem := mkFS {
  fs : gmap string Node;
  file_contents : gmap string json
}.

(** Result of a method that may raise [KeyError] after having mutated
    the object: both constructors carry the object as the call left it. *)
Inductive result (A : Type) : Type :=
| Done (a : A)
| KeyError (a : A).
Arguments Done {A} a.
Arguments KeyError {A} a.

Definition state_of {A} (r : result A) : A :=
  match r with Done a => a | KeyError a => a end.

Definition slash : ascii := "/"%char.

(** [FakeFilesystem.__init__], before [_load_decoy_blueprints]. *)
Definition init_fs : gmap string Node :=
  list_to_map
    [ ("/", dir ["bin"; "etc"; "home"; "var"; "usr"; "tmp"; "root"]);
      ("/bin", dir ["ls"; "cd"; "pwd"; "cat"; "echo"; "bash"; "sh"]);
      ("/etc", dir ["passwd"; "shadow"; "hostname"; "hosts"]);
      ("/home", dir ["user"]);
      ("/home/user", dir []);
      ("/var", dir ["log"; "www"]);
      ("/var/log", dir ["auth.log"; "syslog"]);
      ("/root", dir []);
      ("/tmp", dir []);
      ("/usr", dir ["bin"; "lib"]) ].

Definition NL : string := String (ascii_of_nat 10) EmptyString.
Definition TAB : string := String (ascii_of_nat 9) EmptyString.

Definition init_file_contents : gmap string json :=
  list_to_map
    [ ("/etc/passwd",
        JStr ("root:x:0:0:root:/root:/bin/bash" +:+ NL +:+
              "user:x:1000:1000:user:/home/user:/bin/bash" +:+ NL));
      ("/etc/shadow",
        JStr ("root:*:19777:0:99999:7:::" +:+ NL +:+
              "user:*:19777:0:99999:7:::" +:+ NL));
      ("/etc/hostname", JStr ("server01" +:+ NL));
      ("/etc/hosts",
        JStr ("127.0.0.1" +:+ TAB +:+ "localhost" +:+ NL +:+
              "127.0.1.1" +:+ TAB +:+ "server01" +:+ NL)) ].

Definition init : FakeFilesystem := mkFS init_fs init_file_contents.

(** *** resolve_path *)

(** One iteration of the normalisation loop over [parts]. *)
Definition normalize_step (normalized : list string) (part : string)
  : list string :=
  if bool_decide (part = "") || bool_decide (part = ".") then normalized
  else if bool_decide (part = "..") then
    match normalized with
    | [] => []
    | _ => removelast normalized
    end
  else normalized ++ [part].

Definition normalize (parts : list string) : list string :=
  fold_left normalize_step parts [].

Definition resolve_path (current_path new_path : string) : string :=
  let target :=
    if PyStr.startswith "/" new_path then new_path
    else if bool_decide (current_path = "/") then "/" +:+ new_path
    else current_path +:+ "/" +:+ new_path in
  "/" +:+ PyStr.join "/" (normalize (PyStr.split slash target)).

(** A segment that names something: not empty, not [.], not [..]. *)
Definition real_segment (part : string) : Prop :=
  part ≠ "" ∧ part ≠ "." ∧ part ≠ "..".

(** *** list_dir, get_file_content, is_dir, is_file *)

Definition list_dir (s : FakeFilesystem) (path : string)
  : option (list string) :=
  match fs s !! path with
  | None => None
  | Some node =>
      if bool_decide (type node = "dir") then Some (contents node)
      else None
  end.

Definition get_file_content (s : FakeFilesystem) (path : string)
  : option json :=
  file_contents s !! path.

Definition is_dir (s : FakeFilesystem) (path : string) : bool :=
  match fs s !! path with
  | Some node => bool_decide (type node = "dir")
  | None => false
  end.

Definition is_file (s : FakeFilesystem) (path : string) : bool :=
  bool_decide (is_Some (file_contents s !! path)).

(** *** deploy_decoy *)

(** [self.fs[d]['contents'].append(name)] guarded by
    [name not in self.fs[d]['contents']]; [None] is the [KeyError] of
    [self.fs[d]]. *)
Definition add_entry (m : gmap string Node) (d name : string)
  : option (gmap string Node) :=
  match m !! d with
  | None => None
  | Some node =>
      if PyStr.mem name (contents node) then Some m
      else Some (<[d := mkNode (type node) (contents node ++ [name])]> m)
  end.

Definition next_dir_of (current_dir part : string) : string :=
  if bool_decide (current_dir = "/") then current_dir +:+ part
  else current_dir +:+ "/" +:+ part.

(** The loop [for part in parts[:-1]] with its two variables, the
    directory map and [current_dir]. *)
Fixpoint make_dirs (m : gmap string Node) (current_dir : string)
    (parts : list string) : result (gmap string Node * string) :=
  match parts with
  | [] => Done (m, current_dir)
  | part :: rest =>
      if bool_decide (part = "") then make_dirs m current_dir rest
      else
        let next_dir := next_dir_of current_dir part in
        match m !! next_dir with
        | Some _ => make_dirs m next_dir rest
        | None =>
            let m1 := <[next_dir := dir []]> m in
            match add_entry m1 current_dir part with
            | None => KeyError (m1, current_dir)
            | Some m2 => make_dirs m2 next_dir rest
            end
        end
  end.

Definition path_parts (path : string) : list string :=
  PyStr.split slash (PyStr.strip (PyStr.is_char slash) path).

(** [parts[-1]]; [parts] is never empty. *)
Definition filename_of (path : string) : string :=
  List.last (path_parts path) "".

Definition deploy_decoy (s : FakeFilesystem) (path : string)
    (content : json) : result FakeFilesystem :=
  let fc := <[path := content]> (file_contents s) in
  match make_dirs (fs s) "/" (removelast (path_parts path)) with
  | KeyError (m, _) => KeyError (mkFS m fc)
  | Done (m, current_dir) =>
      match m !! current_dir with
      | None => Done (mkFS m fc)
      | Some _ =>
          match add_entry m current_dir (filename_of path) with
          | Some m' => Done (mkFS m' fc)
          | None => KeyError (mkFS m fc)
          end
      end
  end.

(** The directories the loop of [deploy_decoy] walks through, as
    [(current_dir, part, next_dir)] for each iteration with a part that
    is not empty, and the [current_dir] it ends on. *)
Fixpoint dir_chain (current_dir : string) (parts : list string)
  : list (string * string * string) :=
  match parts with
  | [] => []
  | part :: rest =>
      if bool_decide (part = "") then dir_chain current_dir rest
      else (current_dir, part, next_dir_of current_dir part)
             :: dir_chain (next_dir_of current_dir part) rest
  end.

Fixpoint walk (current_dir : string) (parts : list string) : string :=
  match parts with
  | [] => current_dir
  | part :: rest =>
      if bool_decide (part = "") then walk current_dir rest
      else walk (next_dir_of current_dir part) rest
  end.

Definition ancestors (path : string) : list (string * string * string) :=
  dir_chain "/" (removelast (path_parts path)).

Definition parent_dir (path : string) : string :=
  walk "/" (removelast (path_parts path)).

(** Number of times [name] is in a listing. *)
Definition occurrences (name : string) (listing : list string) : nat :=
  count_occ String.eq_dec listing name.

(** No listing names an entry twice. *)
Definition no_duplicates (m : gmap string Node) : Prop :=
  ∀ d node, m !! d = Some node → NoDup (contents node).

(** [m'] keeps every directory of [m] and every entry of its listing. *)
Definition extends (m m' : gmap string Node) : Prop :=
  ∀ d node, m !! d = Some node →
    ∃ node', m' !! d = Some node' ∧ contents node ⊆ contents node'.

(** What the constructor establishes and [deploy_decoy] keeps: the
    root is there and no listing names an entry twice. *)
Definition wf (s : FakeFilesystem) : Prop :=
  is_Some (fs s !! "/") ∧ no_duplicates (fs s).

(** The filesystems a honeypot can hold: the constructor's, then any
    number of decoys deployed. *)
Inductive reachable : FakeFilesystem → Prop :=
| reachable_init : reachable init
| reachable_deploy s path content :
    reachable s → reachable (state_of (deploy_decoy s path content)).

(** *** CommandSimulator *)

Record CommandSimulator := mkSim {
  sim_fs : FakeFilesystem;
  current_path : string;
  hostname : string;
  user : string
}.

(** [CommandSimulator.__init__] *)
Definition new_simulator (filesystem : FakeFilesystem) : CommandSimulator :=
  mkSim filesystem "/root" "server01" "root".

Definition non_flags (args : list string) : list string :=
  List.filter (fun arg => negb (PyStr.startswith "-" arg)) args.

Definition no_such (what : string) : string :=
  "ls: cannot access '" +:+ what +:+ "': No such file or directory".

Definition _cmd_ls (sim : CommandSimulator) (args : list string) : string :=
  let paths := non_flags args in
  let target :=
    match paths with
    | [] => current_path sim
    | p :: _ => resolve_path (current_path sim) p
    end in
  match list_dir (sim_fs sim) target with
  | None =>
      let shown := match paths with [] => target | p :: _ => p end in
      if is_file (sim_fs sim) target then shown
      else no_such shown
  | Some listing => PyStr.join "  " listing
  end.

Definition _cmd_cd (sim : CommandSimulator) (args : list string)
  : CommandSimulator * string :=
  match args with
  | [] => (mkSim (sim_fs sim) "/root" (hostname sim) (user sim), "")
  | a :: _ =>
      let target := resolve_path (current_path sim) a in
      if is_dir (sim_fs sim) target
      then (mkSim (sim_fs sim) target (hostname sim) (user sim), "")
      else (sim, "cd: " +:+ a +:+ ": No such file or directory")
  end.

(** [_cmd_cat] returns the stored content as it is, so its result (and
    that of [execute_command]) is a JSON value: text in every other
    case. *)
Definition _cmd_cat (sim : CommandSimulator) (args : list string) : json :=
  match args with
  | [] => JStr ""
  | a :: _ =>
      let target := resolve_path (current_path sim) a in
      let missing :=
        if is_dir (sim_fs sim) target
        then JStr ("cat: " +:+ a +:+ ": Is a directory")
        else JStr ("cat: " +:+ a +:+ ": No such file or directory") in
      match get_file_content (sim_fs sim) target with
      | Some JNull => missing
      | Some content => content
      | None => missing
      end
  end.

Definition uname_a : string :=
  "Linux server01 5.4.0-42-generic #46-Ubuntu SMP Fri Jul 10 00:24:02 UTC 2020 x86_64 x86_64 x86_64 GNU/Linux".

(** The branch for [wget], [curl], [apt], [apt-get] and [yum] returns
    what the final [else] returns, and is merged into it. *)
Definition execute_command (sim : CommandSimulator) (cmd_line : string)
  : CommandSimulator * json :=
  match PyStr.split_ws (PyStr.strip PyStr.is_space cmd_line) with
  | [] => (sim, JStr "")
  | cmd :: args =>
      if PyStr.eqb cmd "ls" then (sim, JStr (_cmd_ls sim args))
      else if PyStr.eqb cmd "cd" then
        (fst (_cmd_cd sim args), JStr (snd (_cmd_cd sim args)))
      else if PyStr.eqb cmd "pwd" then (sim, JStr (current_path sim))
      else if PyStr.eqb cmd "cat" then (sim, _cmd_cat sim args)
      else if PyStr.eqb cmd "whoami" then (sim, JStr (user sim))
      else if PyStr.eqb cmd "id" then
        (sim, JStr ("uid=0(" +:+ user sim +:+ ") gid=0(" +:+ user sim
                    +:+ ") groups=0(" +:+ user sim +:+ ")"))
      else if PyStr.eqb cmd "uname" then
        (sim, JStr (if PyStr.mem "-a" args then uname_a else "Linux"))
      else if PyStr.eqb cmd "exit" then (sim, JStr "EXIT")
      else (sim, JStr (cmd +:+ ": command not found"))
  end.

End Deception.

(** ** honeypot.py *)

Module Honeypot.
Import Json Deception.

Definition MAX_ATTEMPTS : Z := 5.
Definition BLOCK_DURATION : Z := 60.

(** *** Shared state: block map, global block set, log queue *)

(** A value of [BLOCKED_IPS]: [{'attempts': n, 'until': t}]. *)
Record BlockEntry := mkEntry { attempts : Z; until : Z }.

Inductive EventType :=
| LOGIN_ATTEMPT | BLOCK | SHELL_SESSION_START | CMD_EXEC | SHELL_SESSION_END.

(** The [details] of an entry. The text of a [CMD_EXEC] entry, the
    f-string [Cmd: {cmd}, Out: {output[:50]}...], is kept as the two
    values it interpolates. *)
Inductive Details :=
| NoDetails
| Text (s : string)
| CmdOut (cmd : string) (excerpt : json).

(** An entry of [LOG_QUEUE]. Its [timestamp], the wall clock read when
    it is put on the queue, plays no part in any decision and is not
    kept. *)
Record LogEvent := mkEvent {
  event_type : EventType;
  ev_ip : string;
  username : option string;
  password : option string;
  details : Details
}.

Record State := mkState {
  BLOCKED_IPS : gmap string BlockEntry;
  GLOBAL_BLOCKED_IPS : gset string;
  LOG_QUEUE : list LogEvent
}.

Definition log_event (st : State) (ev : LogEvent) : State :=
  mkState (BLOCKED_IPS st) (GLOBAL_BLOCKED_IPS st) (LOG_QUEUE st ++ [ev]).

(** [is_blocked] returns its answer and the state it leaves: an entry
    found expired is deleted. *)
Definition is_blocked (st : State) (ip : string) (now : Z) : bool * State :=
  if bool_decide (ip ∈ GLOBAL_BLOCKED_IPS st) then (true, st)
  else
    match BLOCKED_IPS st !! ip with
    | None => (false, st)
    | Some e =>
        if MAX_ATTEMPTS <=? attempts e then
          if now <? until e then (true, st)
          else (false, mkState (delete ip (BLOCKED_IPS st))
                               (GLOBAL_BLOCKED_IPS st) (LOG_QUEUE st))
        else (false, st)
    end.

Definition block_event (ip : string) : LogEvent :=
  mkEvent BLOCK ip None None (Text "Blocked for 60s after 5 attempts").

(** [block_ip] counts one more attempt and, at the threshold, sets
    [until] and queues the BLOCK entry. *)
Definition block_ip (st : State) (ip : string) (now : Z) : State :=
  let e := default (mkEntry 0 0) (BLOCKED_IPS st !! ip) in
  let n := attempts e + 1 in
  if MAX_ATTEMPTS <=? n then
    log_event
      (mkState (<[ip := mkEntry n (now + BLOCK_DURATION)]> (BLOCKED_IPS st))
               (GLOBAL_BLOCKED_IPS st) (LOG_QUEUE st))
      (block_event ip)
  else
    mkState (<[ip := mkEntry n (until e)]> (BLOCKED_IPS st))
            (GLOBAL_BLOCKED_IPS st) (LOG_QUEUE st).

(** *** HoneypotServer.check_auth_password *)

Inductive AuthResult := AUTH_SUCCESSFUL | AUTH_FAILED.

Definition is_bait_cred (username password : string) : bool :=
  (PyStr.eqb username "admin" && PyStr.eqb password "admin")
  || (PyStr.eqb username "root" && PyStr.eqb password "1234").

Definition login_event (ip username password : string) : LogEvent :=
  mkEvent LOGIN_ATTEMPT ip (Some username) (Some password) NoDetails.

(** [ALLOW_ALL_CREDS] is read from the environment once, at import. *)
Definition check_auth_password (ALLOW_ALL_CREDS : bool) (st : State)
    (client_ip username password : string) (now : Z) : AuthResult * State :=
  let '(blocked, st1) := is_blocked st client_ip now in
  if blocked then (AUTH_FAILED, st1)
  else
    let st2 := log_event st1 (login_event client_ip username password) in
    if ALLOW_ALL_CREDS || is_bait_cred username password
    then (AUTH_SUCCESSFUL, st2)
    else (AUTH_FAILED, block_ip st2 client_ip now).

(** The attempt counter of [ip]: zero while it has no entry. *)
Definition counter (st : State) (ip : string) : Z :=
  attempts (default (mkEntry 0 0) (BLOCKED_IPS st !! ip)).

(** Credential submissions of one client, each with the instant it is
    made at, handled one after the other; the results in order and the
    state they leave. *)
Fixpoint submit_all (ALLOW_ALL_CREDS : bool) (st : State) (ip : string)
    (subs : list (string * string * Z)) : list AuthResult * State :=
  match subs with
  | [] => ([], st)
  | (username, password, now) :: rest =>
      let r := check_auth_password ALLOW_ALL_CREDS st ip username password
                                   now in
      let rs := submit_all ALLOW_ALL_CREDS (snd r) ip rest in
      (fst r :: fst rs, snd rs)
  end.

Definition non_bait (sub : string * string * Z) : Prop :=
  is_bait_cred (fst (fst sub)) (snd (fst sub)) = false.

Definition login_event_of (ip : string) (sub : string * string * Z)
  : LogEvent :=
  login_event ip (fst (fst sub)) (snd (fst sub)).

(** *** The command loop of handle_connection *)

(** An element of [session_history]: [{"command": cmd}]. *)
Record HistoryEntry := mkHist { command : string }.

(** [fs_context]: [{"path": ..., "contents": [...]}]. *)
Record FsContext := mkCtx { ctx_path : string; ctx_contents : list string }.

(** [eval_payload], the body posted to [/evaluate_command]. *)
Record EvalPayload := mkPayload {
  p_ip : string;
  p_command : string;
  p_history : list HistoryEntry;
  p_filesystem_context : FsContext
}.

(** What [requests.post] and [eval_response.json()] can do: raise
    [requests.Timeout], raise another exception, or return a response
    with a status code and a body, [None] when the body is not JSON
    ([.json()] raises). *)
Inductive OracleReply :=
| Timeout
| RequestFailed
| Response (status_code : Z) (body : option json).

(** [CONTROLLER_URL] unset is [None]; set, it stands for the service
    behind it. Within one session no two requests are equal (the
    history grows with each), so a function of the request describes
    any sequence of replies. *)
Definition Controller := option (EvalPayload → OracleReply).

(** The locals of [handle_connection] that outlive one command,
    together with two traces: [chan], the arguments of [chan.send] in
    order, and [posted], the bodies posted to the oracle in order. *)
Record Session := mkSession {
  simulator : CommandSimulator;
  buf : string;
  session_history : list HistoryEntry;
  chan : list string;
  posted : list EvalPayload
}.

(** How the [for char in chars] loop is left: it goes on, it is left
    with [should_exit] set, or an exception escapes to the handlers of
    the outer [try], which close the connection. *)
Inductive Flow := Continue | Exit | Crashed.

Definition CR : ascii := ascii_of_nat 13.
Definition LF : ascii := ascii_of_nat 10.
Definition BS : ascii := ascii_of_nat 8.
Definition DEL : ascii := ascii_of_nat 127.
Definition CRLF : string := String CR (String LF EmptyString).

Definition termination_notice : string :=
  CRLF +:+ "Connection terminated by security policy." +:+ CRLF.

Definition prompt (sim : CommandSimulator) : string :=
  user sim +:+ "@" +:+ hostname sim +:+ ":" +:+ current_path sim +:+ "# ".

Definition is_BLOCK (action : json) : bool :=
  match action with
  | JStr s => bool_decide (s = "BLOCK")
  | _ => false
  end.

Definition make_payload (ip cmd : string) (history : list HistoryEntry)
    (sim : CommandSimulator) : EvalPayload :=
  mkPayload ip cmd history
    (mkCtx (current_path sim)
           (match list_dir (sim_fs sim) (current_path sim) with
            | Some (name :: names) => name :: names
            | _ => []
            end)).

(** The body of the [try] around the oracle call, from the reply on.
    [None]: the verdict is BLOCK. [Some fs']: the command is to be
    executed on [fs'], whether the [try] ended normally or in one of
    its two [except] clauses. When [path] is not text [deploy_decoy]
    raises ([TypeError] or [AttributeError]); for a number or a boolean
    it has by then stored the content under that key, which no lookup
    by a path ever finds. *)
Definition evaluate_reply (fs0 : FakeFilesystem) (reply : OracleReply)
  : option FakeFilesystem :=
  match reply with
  | Timeout => Some fs0
  | RequestFailed => Some fs0
  | Response status_code body =>
      if status_code =? 200 then
        match body with
        | None => Some fs0
        | Some decision =>
            match get decision "action" (JStr "ALLOW") with
            | None => Some fs0
            | Some action =>
                if is_BLOCK action then None
                else
                  match get decision "dynamic_decoy" (JObj []) with
                  | None => Some fs0
                  | Some decoy =>
                      match get decoy "should_deploy" JNull,
                            get decoy "path" JNull,
                            get decoy "content" JNull with
                      | Some should_deploy, Some path, Some content =>
                          if truthy should_deploy && truthy path
                             && truthy content then
                            match path with
                            | JStr p =>
                                Some (state_of (deploy_decoy fs0 p content))
                            | _ => Some fs0
                            end
                          else Some fs0
                      | _, _, _ => Some fs0
                      end
                  end
            end
        end
      else Some fs0
  end.

Definition cmd_exec_event (ip cmd : string) (excerpt : json) : LogEvent :=
  mkEvent CMD_EXEC ip None None (CmdOut cmd excerpt).

(** From [output = server.simulator.execute_command(cmd)] to the end of
    the branch. [ss] already has the [CRLF] echo in [chan] and the
    command in [session_history]. An output that is not text raises:
    at [output[:50]] for a number, a boolean or an object, at
    [output.replace] for a list. *)
Definition run_command (ip : string) (st : State) (ss : Session)
    (cmd : string) : State * Session * Flow :=
  let sim2 := fst (execute_command (simulator ss) cmd) in
  let output := snd (execute_command (simulator ss) cmd) in
  let ended :=
    mkSession sim2 (buf ss) (session_history ss) (chan ss) (posted ss) in
  match output with
  | JStr out =>
      let st' :=
        log_event st (cmd_exec_event ip cmd (JStr (PyStr.take 50 out))) in
      if PyStr.eqb out "EXIT" then (st', ended, Exit)
      else
        let out' := PyStr.replace_char LF CRLF out in
        let chan' :=
          if PyStr.eqb out' "" then chan ss else chan ss ++ [out' +:+ CRLF] in
        (st',
         mkSession sim2 "" (session_history ss) (chan' ++ [prompt sim2])
                   (posted ss),
         Continue)
  | JArr l =>
      (log_event st (cmd_exec_event ip cmd (JArr (firstn 50 l))),
       ended, Crashed)
  | _ => (st, ended, Crashed)
  end.

Definition with_fs (sim : CommandSimulator) (fs' : FakeFilesystem)
  : CommandSimulator :=
  mkSim fs' (current_path sim) (hostname sim) (user sim).

Definition add_global (st : State) (ip : string) : State :=
  mkState (BLOCKED_IPS st) (GLOBAL_BLOCKED_IPS st ∪ {[ip]}) (LOG_QUEUE st).

(** Whether [chan.send] of the termination notice returns ([true]) or
    raises ([false]), for the request at hand. It is the one send inside
    the [try] around the oracle call: when it raises, the [except] of
    that [try] swallows the exception and the loop goes on to execute
    the command. A send that raises anywhere else escapes to the
    handlers of the outer [try], which end the session; the sends of the
    echo, the output and the prompt are taken to return. *)
Definition Notice := EvalPayload → bool.

(** The branch [if char in ('\r', '\n')]. *)
Definition on_enter (notice_sent : Notice) (CONTROLLER_URL : Controller)
    (ip : string) (st : State) (ss : Session) (now : Z)
  : State * Session * Flow :=
  let chan1 := chan ss ++ [CRLF] in
  let cmd := PyStr.strip PyStr.is_space (buf ss) in
  if PyStr.eqb cmd "" then
    (st,
     mkSession (simulator ss) "" (session_history ss)
               (chan1 ++ [prompt (simulator ss)]) (posted ss),
     Continue)
  else
    let history := session_history ss ++ [mkHist cmd] in
    match CONTROLLER_URL with
    | None =>
        run_command ip st
          (mkSession (simulator ss) (buf ss) history chan1 (posted ss)) cmd
    | Some oracle =>
        let payload := make_payload ip cmd history (simulator ss) in
        let posted' := posted ss ++ [payload] in
        match evaluate_reply (sim_fs (simulator ss)) (oracle payload) with
        | None =>
            if notice_sent payload then
              (add_global (block_ip st ip now) ip,
               mkSession (simulator ss) (buf ss) history
                         (chan1 ++ [termination_notice]) posted',
               Exit)
            else
              run_command ip st
                (mkSession (simulator ss) (buf ss) history chan1 posted') cmd
        | Some fs' =>
            run_command ip st
              (mkSession (with_fs (simulator ss) fs') (buf ss) history
                         chan1 posted') cmd
        end
    end.

(** One iteration of [for char in chars]. *)
Definition feed_char (notice_sent : Notice) (CONTROLLER_URL : Controller)
    (ip : string) (st : State) (ss : Session) (now : Z) (char : ascii)
  : State * Session * Flow :=
  if Ascii.eqb char CR || Ascii.eqb char LF then
    on_enter notice_sent CONTROLLER_URL ip st ss now
  else if Ascii.eqb char DEL || Ascii.eqb char BS then
    match buf ss with
    | EmptyString => (st, ss, Continue)
    | _ =>
        (st,
         mkSession (simulator ss) (PyStr.drop_last (buf ss))
                   (session_history ss)
                   (chan ss ++ [String BS (String " " (String BS ""))])
                   (posted ss),
         Continue)
    end
  else
    (st,
     mkSession (simulator ss) (buf ss +:+ String char "")
               (session_history ss) (chan ss ++ [String char ""])
               (posted ss),
     Continue).

(** The loop over the characters received, left at the first command
    that ends the session. *)
Fixpoint feed (notice_sent : Notice) (CONTROLLER_URL : Controller)
    (ip : string) (st : State) (ss : Session) (now : Z) (chars : list ascii)
  : State * Session * Flow :=
  match chars with
  | [] => (st, ss, Continue)
  | char :: rest =>
      match feed_char notice_sent CONTROLLER_URL ip st ss now char with
      | (st', ss', Continue) =>
          feed notice_sent CONTROLLER_URL ip st' ss' now rest
      | stop => stop
      end
  end.

(** The oracle call failed: [requests.post] timed out or raised, the
    status is not 200, the body is not JSON, the body is not an object,
    or (the action not being BLOCK) its [dynamic_decoy] is not an
    object. *)
Definition call_fails (reply : OracleReply) : bool :=
  match reply with
  | Timeout => true
  | RequestFailed => true
  | Response status_code body =>
      negb (status_code =? 200)
      || match body with
         | None => true
         | Some (JObj members) =>
             negb (is_BLOCK (from_option id (JStr "ALLOW")
                               (lookup_member "action" members)))
             && match lookup_member "dynamic_decoy" members with
                | None => false
                | Some (JObj _) => false
                | Some _ => true
                end
         | Some _ => true
         end
  end.

(** The session as the shell starts: a fresh simulator, empty buffer
    and history, banner and first prompt sent. *)
Definition new_session (filesystem : FakeFilesystem) : Session :=
  mkSession (new_simulator filesystem) "" []
    [ "Welcome to Ubuntu 20.04.1 LTS (GNU/Linux 5.4.0-42-generic x86_64)"
        +:+ CRLF +:+ CRLF;
      "root@server01:~# " ]
    [].

End Honeypot.

(** ** Scenarios of the specification, as data *)

Module Scenario.
Import Json Deception Honeypot.

Definition st0 : State := mkState ∅ ∅ [].

Definition attacker : string := "9.9.9.9".

(** The first four logins of [tests/test_honeypot.py]. *)
Definition four_failures : list (string * string * Z) :=
  [ ("admin", "password123", 1); ("root", "toor", 2);
    ("user", "123456", 3); ("guest", "guest", 4) ].

(** The state after a fifth failed login, made at instant 5. *)
Definition after_five : State :=
  snd (check_auth_password false
         (snd (submit_all false st0 attacker four_failures))
         attacker "test" "test" 5).

Definition oracle_down : EvalPayload → OracleReply := λ _, Timeout.

(** The termination notice goes through; it does not. *)
Definition notice_delivered : Notice := λ _, true.
Definition notice_fails : Notice := λ _, false.

Definition oracle_allows : EvalPayload → OracleReply :=
  λ _, Response 200 (Some (JObj [("action", JStr "ALLOW")])).

Definition oracle_blocks : EvalPayload → OracleReply :=
  λ _, Response 200
         (Some (JObj [("action", JStr "BLOCK");
                      ("reason", JStr "destructive command");
                      ("risk_score", JNum 95)])).

(** A fresh session in which the client has typed [line]. *)
Definition typed (line : string) : Session :=
  mkSession (new_simulator init) line [] [] [].

(** Four failed logins, then a session in which the oracle blocks a
    command at instant 10. *)
Definition after_block_verdict : State :=
  fst (fst (on_enter notice_delivered (Some oracle_blocks) attacker
              (snd (submit_all false st0 attacker four_failures))
              (typed "rm -rf /") 10)).

Definition lines (l : list string) : list ascii :=
  concat (map (λ line, list_ascii_of_string line ++ [LF]) l).

(** The reply of the last scenario of the specification: ALLOW, with a
    decoy to deploy. *)
Definition decoy_reply : json :=
  JObj [("action", JStr "ALLOW");
        ("dynamic_decoy",
         JObj [("should_deploy", JBool true);
               ("path", JStr "/var/www/config.php");
               ("content", JStr "DB_PASS=...")])].

Definition oracle_plants : EvalPayload → OracleReply :=
  λ _, Response 200 (Some decoy_reply).

End Scenario.

(** ** Shapes of paths, filesystems and input used by the properties *)

Module Shapes.
Import Json Deception Honeypot.

(** The text has no [/] in it. *)
Fixpoint slash_free (s : string) : Prop :=
  match s with
  | EmptyString => True
  | String c s' => c ≠ slash ∧ slash_free s'
  end.

(** Every character is white space ([str.isspace], or the text is
    empty). *)
Fixpoint all_space (s : string) : Prop :=
  match s with
  | EmptyString => True
  | String c s' => PyStr.is_space c = true ∧ all_space s'
  end.

(** Every node is a directory, as all nodes the source creates are. *)
Definition all_dirs (m : gmap string Node) : Prop :=
  ∀ d node, m !! d = Some node → type node = "dir".

(** A simulator whose filesystem the honeypot can hold and whose current
    directory is a directory of it. *)
Definition simulator_ok (sim : CommandSimulator) : Prop :=
  reachable (sim_fs sim) ∧ is_dir (sim_fs sim) (current_path sim) = true.

(** A character the command loop puts in the buffer: neither a line end
    nor a backspace. *)
Definition typed_char (c : ascii) : Prop :=
  c ≠ CR ∧ c ≠ LF ∧ c ≠ DEL ∧ c ≠ BS.

Definition text_of (chars : list ascii) : string :=
  string_of_list_ascii chars.

End Shapes.


(** ** The background workers of honeypot.py and what they talk to *)

Module Pipeline.
Import Json Deception Honeypot.

(** *** BlocklistSyncer.run: one cycle *)

Definition hashable (j : json) : bool :=
  match j with
  | JArr _ => false
  | JObj _ => false
  | _ => true
  end.

Definition text_items (items : list json) : list string :=
  omap (λ j, match j with JStr ip => Some ip | _ => None end) items.

(** [set(ips)], as far as membership of a text goes: of a list, its
    text elements (an element that is a list or an object raises
    [TypeError]); of an object, its keys; of a text, its characters;
    anything else raises [TypeError], which is [None]. *)
Definition set_of (ips : json) : option (gset string) :=
  match ips with
  | JArr items =>
      if forallb hashable items then Some (list_to_set (text_items items))
      else None
  | JObj members => Some (list_to_set (map fst members))
  | JStr s =>
      Some (list_to_set (map (λ c, String c EmptyString)
                             (list_ascii_of_string s)))
  | _ => None
  end.

(** One turn of the loop, before [time.sleep(10)]: [None] when
    [CONTROLLER_URL] is unset, otherwise what [requests.get] and
    [response.json()] did. Every exception is caught and logged. *)
Definition sync_cycle (reply : option OracleReply) (st : State) : State :=
  match reply with
  | Some (Response status_code (Some ips)) =>
      if status_code =? 200 then
        match set_of ips with
        | Some blocked =>
            mkState (BLOCKED_IPS st) blocked (LOG_QUEUE st)
        | None => st
        end
      else st
  | _ => st
  end.

(** *** controller_server.py: the blocklist routes *)

(** [get_blocklist]: [jsonify(list(BLOCKED_IPS))], for a set of
    addresses that are text. *)
Definition get_blocklist (BLOCKED : gset string) : json :=
  JArr (JStr <$> elements BLOCKED).

(** [unblock_ip], on the set. *)
Definition unblock_ip (BLOCKED : gset string) (ip : string) : gset string :=
  if bool_decide (ip ∈ BLOCKED) then BLOCKED ∖ {[ip]} else BLOCKED.

(** *** LogWriter *)

(** An entry as [_write_log] stamps it: [entry['sensor_id'] = SENSOR_ID]. *)
Record Entry := mkStamped { entry_event : LogEvent; sensor_id : string }.

(** What [requests.post(CONTROLLER_URL, ...)] did. *)
Inductive PostOutcome :=
| PostStatus (status_code : Z)
| PostRequestException
| PostOtherException.

(** What [LOG_FILE] is when [_write_local] looks at it: absent; there
    but not to be read ([open] or [json.load] raises something that is
    not a [JSONDecodeError]: no permission, a directory, bytes that are
    not text); not JSON ([json.load] raises [JSONDecodeError]; an empty
    or cut-off file is such a one); JSON that is not a list
    ([logs.append] raises); or a list, taken to hold entries. *)
Inductive LogFile :=
| NoFile
| Unreadable
| NotJson
| NotAList
| Entries (logs : list Entry).

(** The two places an entry can end in: the local file, and the
    collector, as the list of entries it answered 200 to. *)
Record Stores := mkStores { local : LogFile; accepted : list Entry }.

(** The last two lines of [_write_local]. [writable]: [open(LOG_FILE,
    'w')] succeeds, which empties the file. [dump_ok]: [json.dump] then
    writes all of [logs]; when it raises on the way, what is left is
    empty or the beginning of a list, which is not JSON. *)
Definition write_back (writable dump_ok : bool) (file : LogFile)
    (logs : list Entry) : LogFile :=
  if writable then (if dump_ok then Entries logs else NotJson) else file.

(** Every exception is caught and logged: one raised before
    [open(LOG_FILE, 'w')] leaves the file as it was. *)
Definition _write_local (writable dump_ok : bool) (file : LogFile)
    (entry : Entry) : LogFile :=
  match file with
  | NoFile => write_back writable dump_ok file [entry]
  | Unreadable => Unreadable
  | NotJson => write_back writable dump_ok file [entry]
  | NotAList => NotAList
  | Entries logs => write_back writable dump_ok file (logs ++ [entry])
  end.

(** [CONTROLLER_URL] unset is [None]. An exception of the post that is
    not a [RequestException] escapes to [run], which logs it. *)
Definition _write_log (SENSOR_ID : string) (writable dump_ok : bool)
    (CONTROLLER_URL : option PostOutcome) (w : Stores) (ev : LogEvent)
  : Stores :=
  let entry := mkStamped ev SENSOR_ID in
  let fallback := mkStores (_write_local writable dump_ok (local w) entry)
                           (accepted w) in
  match CONTROLLER_URL with
  | None => fallback
  | Some (PostStatus status_code) =>
      if status_code =? 200 then mkStores (local w) (accepted w ++ [entry])
      else fallback
  | Some PostRequestException => fallback
  | Some PostOtherException => w
  end.

(** [run]: the queue is taken in order; each item says, when
    [CONTROLLER_URL] is set, what its post did. *)
Fixpoint drain (SENSOR_ID : string) (writable dump_ok configured : bool)
    (w : Stores) (queue : list (LogEvent * PostOutcome)) : Stores :=
  match queue with
  | [] => w
  | (ev, outcome) :: rest =>
      drain SENSOR_ID writable dump_ok configured
        (_write_log SENSOR_ID writable dump_ok
           (if configured then Some outcome else None) w ev)
        rest
  end.

Definition logs_of (file : LogFile) : list Entry :=
  match file with
  | Entries logs => logs
  | _ => []
  end.

(** The local file can take an entry: it is absent, not JSON, or a
    list. *)
Definition usable (file : LogFile) : Prop :=
  file ≠ Unreadable ∧ file ≠ NotAList.

(** The post was answered 200. *)
Definition taken (configured : bool) (item : LogEvent * PostOutcome) : bool :=
  configured
  && match snd item with
     | PostStatus status_code => status_code =? 200
     | _ => false
     end.

Definition stamped (SENSOR_ID : string) (items : list (LogEvent * PostOutcome))
  : list Entry :=
  map (λ item, mkStamped (fst item) SENSOR_ID) items.

(** *** llm_interface.py: the history the prompt shows *)

(** [history[-3:] if history else []] *)
Definition recent_history (history : list HistoryEntry) : list HistoryEntry :=
  drop (length history - 3) history.

(** *** Invariant of the block map *)

(** Every entry has counted an attempt, no more than the threshold, and
    has no [until] before the threshold. *)
Definition entries_ok (st : State) : Prop :=
  ∀ ip e, BLOCKED_IPS st !! ip = Some e →
    1 ≤ attempts e ≤ MAX_ATTEMPTS ∧ (attempts e < MAX_ATTEMPTS → until e = 0).

End Pipeline.

(** * Properties of the virtual filesystem and the command simulator *)

Module DeceptionProps.
Import Json Deception.

Example ancestors_config :
  ancestors "/var/www/config.php"
  = [("/", "var", "/var"); ("/var", "www", "/var/www")]
  ∧ parent_dir "/var/www/config.php" = "/var/www"
  ∧ filename_of "/var/www/config.php" = "config.php".
Proof. by vm_compute. Qed.

Lemma normalize_dotdot_at_root (parts : list string) :
  normalize (".." :: parts) = normalize parts.
Proof. reflexivity. Qed.

Lemma split_slash_cons (s : string) :
  PyStr.split slash (String "/" s) = "" :: PyStr.split slash s.
Proof. reflexivity. Qed.

Lemma normalize_empty_first (parts : list string) :
  normalize ("" :: parts) = normalize parts.
Proof. reflexivity. Qed.

Lemma resolve_root_relative (rest : string) :
  resolve_path "/" rest
  = "/" +:+ PyStr.join "/" (normalize (PyStr.split slash rest)).
Proof.
  unfold resolve_path. destruct rest as [|c rest]; [reflexivity|].
  unfold PyStr.startswith. cbn [String.prefix].
  destruct (ascii_dec "/" c) as [<-|Hc]; [by destruct rest|].
  rewrite bool_decide_eq_true_2 by reflexivity.
  change ("/" +:+ String c rest) with (String "/" (String c rest)).
  by rewrite split_slash_cons, normalize_empty_first.
Qed.

Lemma removelast_real (l : list string) :
  Forall real_segment l → Forall real_segment (removelast l).
Proof.
  induction 1 as [|x l Hx Hl IH]; simpl; [constructor|].
  destruct l; [constructor | by constructor].
Qed.

Lemma normalize_step_real (normalized : list string) (part : string) :
  Forall real_segment normalized →
  Forall real_segment (normalize_step normalized part).
Proof.
  intros Hn. unfold normalize_step.
  destruct (bool_decide (part = "")) eqn:H1;
    [done|apply bool_decide_eq_false in H1].
  destruct (bool_decide (part = ".")) eqn:H2;
    [done|apply bool_decide_eq_false in H2]. simpl.
  destruct (bool_decide (part = "..")) eqn:H3;
    [|apply bool_decide_eq_false in H3].
  - destruct normalized; [constructor | by apply removelast_real].
  - apply Forall_app. split; [done|]. by repeat constructor.
Qed.

Lemma fold_normalize_real (parts normalized : list string) :
  Forall real_segment normalized →
  Forall real_segment (fold_left normalize_step parts normalized).
Proof.
  revert normalized. induction parts as [|p parts IH]; intros acc Hacc; simpl.
  - done.
  - by apply IH, normalize_step_real.
Qed.

(** C4. Path resolution never pops above the root:
    [resolve("/", "..") = "/"], [resolve("/var/log", "../www") = "/var/www"];
    a [..] segment met while no segment is left is skipped, so that
    resolving [../rest] from the root is resolving [rest] from the root;
    and every resolution returns, its result being [/] followed by
    segments that name something, joined by [/]. *)
Theorem resolve_path_never_pops_above_root :
  resolve_path "/" ".." = "/"
  ∧ resolve_path "/var/log" "../www" = "/var/www"
  ∧ normalize_step [] ".." = []
  ∧ (∀ parts : list string, normalize (".." :: parts) = normalize parts)
  ∧ (∀ rest : string,
       resolve_path "/" ("../" +:+ rest) = resolve_path "/" rest)
  ∧ (∀ current_path new_path : string,
       ∃ segments,
         resolve_path current_path new_path
         = "/" +:+ PyStr.join "/" segments
         ∧ Forall real_segment segments).
Proof.
  split; [reflexivity|]. split; [reflexivity|]. split; [reflexivity|].
  split; [exact normalize_dotdot_at_root|]. split.
  - intros rest. rewrite !resolve_root_relative. reflexivity.
  - intros current_path new_path. unfold resolve_path.
    eexists. split; [reflexivity|]. apply fold_normalize_real. constructor.
Qed.

(** *** ls *)

Lemma list_dir_is_dir (s : FakeFilesystem) (path : string) :
  is_dir s path = true ↔ is_Some (list_dir s path).
Proof.
  unfold is_dir, list_dir. destruct (fs s !! path) as [node|].
  - destruct (bool_decide (type node = "dir")); split;
      (done || by intros [? ?] || eauto).
  - split; [done | by intros [? ?]].
Qed.

(** C10. When the argument [ls] resolves (its first argument that is not
    a flag) names a file that is not a directory, [ls] returns that
    argument as typed; it returns the listing when the path is a
    directory, and the "No such file or directory" message only in the
    remaining case, when the path is neither. *)
Theorem ls_of_a_file_returns_the_argument
    (sim : CommandSimulator) (args : list string) (p : string)
    (rest : list string) :
  non_flags args = p :: rest →
  let target := resolve_path (current_path sim) p in
  (is_dir (sim_fs sim) target = false → is_file (sim_fs sim) target = true →
     _cmd_ls sim args = p)
  ∧ (is_dir (sim_fs sim) target = false →
     is_file (sim_fs sim) target = false →
     _cmd_ls sim args = no_such p)
  ∧ (is_dir (sim_fs sim) target = true →
     ∃ listing, list_dir (sim_fs sim) target = Some listing
                ∧ _cmd_ls sim args = PyStr.join "  " listing).
Proof.
  intros Hargs target. unfold _cmd_ls. rewrite Hargs. fold target.
  pose proof (list_dir_is_dir (sim_fs sim) target) as Hdir.
  destruct (list_dir (sim_fs sim) target) as [listing|] eqn:Hl.
  - assert (is_dir (sim_fs sim) target = true) as -> by (apply Hdir; eauto).
    repeat split; try discriminate. intros _. by exists listing.
  - assert (is_dir (sim_fs sim) target = false) as ->.
    { destruct (is_dir (sim_fs sim) target); [|done].
      destruct Hdir as [Hdir _]. by destruct Hdir. }
    repeat split; try discriminate; by intros _ ->.
Qed.

Lemma ls_of_a_file_witness :
  _cmd_ls (new_simulator init) ["-la"; "/etc/passwd"] = "/etc/passwd".
Proof.
  apply (ls_of_a_file_returns_the_argument
           (new_simulator init) ["-la"; "/etc/passwd"] "/etc/passwd" []).
  - reflexivity.
  - by vm_compute.
  - by vm_compute.
Defined.

(** *** deploy_decoy *)

Lemma length_app_string (a b : string) :
  String.length (a +:+ b) = (String.length a + String.length b)%nat.
Proof. induction a as [|c a IH]; simpl; [done | by rewrite IH]. Qed.

Lemma next_dir_of_longer (d part : string) :
  part ≠ "" → (String.length d < String.length (next_dir_of d part))%nat.
Proof.
  intros Hp. unfold next_dir_of.
  assert (0 < String.length part)%nat by (destruct part; [done | simpl; lia]).
  case_bool_decide; rewrite !length_app_string; simpl; lia.
Qed.

Lemma dir_chain_longer (parts : list string) (cur d part next : string) :
  (d, part, next) ∈ dir_chain cur parts →
  (String.length cur < String.length next)%nat.
Proof.
  revert cur. induction parts as [|p parts IH]; intros cur; simpl.
  - by intros ?%elem_of_nil.
  - case_bool_decide as Hp; [by apply IH|].
    intros [[= -> -> ->]|Hin]%elem_of_cons.
    + by apply next_dir_of_longer.
    + apply IH in Hin. pose proof (next_dir_of_longer cur p Hp). lia.
Qed.

Lemma extends_refl (m : gmap string Node) : extends m m.
Proof. intros d node ?. by exists node. Qed.

Lemma extends_trans (m1 m2 m3 : gmap string Node) :
  extends m1 m2 → extends m2 m3 → extends m1 m3.
Proof.
  intros H12 H23 d node Hd.
  destruct (H12 d node Hd) as (n2 & Hn2 & ?).
  destruct (H23 d n2 Hn2) as (n3 & Hn3 & ?).
  exists n3. split; [done | set_solver].
Qed.

Lemma extends_is_Some (m m' : gmap string Node) (d : string) :
  extends m m' → is_Some (m !! d) → is_Some (m' !! d).
Proof. intros He [node Hd]. destruct (He d node Hd) as (n' & -> & _). eauto. Qed.

Lemma add_entry_spec (m : gmap string Node) (d name : string) (node : Node) :
  m !! d = Some node →
  ∃ m' node',
    add_entry m d name = Some m'
    ∧ m' !! d = Some node'
    ∧ name ∈ contents node'
    ∧ contents node ⊆ contents node'
    ∧ (NoDup (contents node) → NoDup (contents node'))
    ∧ (∀ k, k ≠ d → m' !! k = m !! k).
Proof.
  intros Hd. unfold add_entry, PyStr.mem. rewrite Hd.
  case_bool_decide as Hin.
  - exists m, node. by repeat split.
  - eexists _, _. split; [reflexivity|]. rewrite lookup_insert_eq.
    split; [reflexivity|]. simpl. repeat split.
    + set_solver.
    + set_solver.
    + intros Hnd. apply NoDup_app. repeat split; [done| |apply NoDup_singleton].
      intros x Hx ->%list_elem_of_singleton. done.
    + intros k Hk. by rewrite lookup_insert_ne.
Qed.

Lemma add_entry_present (m : gmap string Node) (d name : string) (node : Node) :
  m !! d = Some node → name ∈ contents node → add_entry m d name = Some m.
Proof.
  intros Hd Hin. unfold add_entry, PyStr.mem. rewrite Hd.
  by rewrite bool_decide_eq_true_2.
Qed.

Lemma make_dirs_spec (parts : list string) (m : gmap string Node)
    (cur : string) :
  is_Some (m !! cur) → no_duplicates m →
  ∃ m',
    make_dirs m cur parts = Done (m', walk cur parts)
    ∧ is_Some (m' !! walk cur parts)
    ∧ no_duplicates m'
    ∧ extends m m'
    ∧ (∀ d part next, (d, part, next) ∈ dir_chain cur parts →
         is_Some (m' !! next)
         ∧ (m !! next = None →
            ∃ node, m' !! d = Some node ∧ part ∈ contents node)).
Proof.
  revert m cur. induction parts as [|p parts IH]; intros m cur Hcur Hnd; simpl.
  - exists m. split; [done|]. split; [done|]. split; [done|].
    split; [apply extends_refl|]. by intros d part next ?%elem_of_nil.
  - case_bool_decide as Hp; [by apply IH|].
    set (next := next_dir_of cur p).
    assert (cur ≠ next) as Hne.
    { intros Heq. pose proof (next_dir_of_longer cur p Hp) as Hlt.
      fold next in Hlt. rewrite <- Heq in Hlt. lia. }
    destruct (m !! next) as [nd|] eqn:Hnext.
    + destruct (IH m next) as (m' & Hrun & Hlast & Hnd' & Hext & Hchain);
        [by rewrite Hnext|done|].
      exists m'. split; [done|]. split; [done|]. split; [done|].
      split; [done|].
      intros d part nx [[= -> -> ->]|Hin]%elem_of_cons; [|by apply Hchain].
      split; [|intros Hnone; congruence].
      apply (extends_is_Some m); [done | by rewrite Hnext].
    + destruct Hcur as [node Hnode].
      destruct (add_entry_spec (<[next := dir []]> m) cur p node)
        as (m2 & node2 & Hadd & Hm2 & Hin2 & Hsub & Hnd2 & Hother).
      { by rewrite lookup_insert_ne. }
      rewrite Hadd.
      assert (m2 !! next = Some (dir [])) as Hm2next.
      { rewrite Hother by done. apply lookup_insert_eq. }
      assert (no_duplicates m2) as Hndm2.
      { intros k nk Hk. destruct (decide (k = cur)) as [->|Hkc].
        - rewrite Hm2 in Hk. injection Hk as <-. apply Hnd2. by eapply Hnd.
        - rewrite Hother in Hk by done.
          destruct (decide (k = next)) as [->|Hkn].
          + rewrite lookup_insert_eq in Hk. injection Hk as <-. constructor.
          + rewrite lookup_insert_ne in Hk by done. by eapply Hnd. }
      assert (extends m m2) as Hext2.
      { intros k nk Hk. destruct (decide (k = cur)) as [->|Hkc].
        - exists node2. split; [done|]. rewrite Hnode in Hk. by injection Hk as <-.
        - exists nk. split; [|done]. rewrite Hother by done.
          rewrite lookup_insert_ne; [done|]. intros <-. congruence. }
      destruct (IH m2 next) as (m' & Hrun & Hlast & Hnd' & Hext & Hchain);
        [by rewrite Hm2next|done|].
      exists m'. split; [done|]. split; [done|]. split; [done|].
      split; [by eapply extends_trans|].
      intros d part nx [[= -> -> ->]|Hin]%elem_of_cons.
      * split; [apply (extends_is_Some m2); by rewrite ?Hm2next|].
        intros _. destruct (Hext cur node2 Hm2) as (n' & Hn' & Hsub').
        exists n'. split; [done | by apply Hsub'].
      * destruct (Hchain d part nx Hin) as [Hsome Hnew]. split; [done|].
        intros Hnone. apply Hnew.
        pose proof (dir_chain_longer _ _ _ _ _ Hin) as Hlen.
        pose proof (next_dir_of_longer cur p Hp) as Hlt. fold next in Hlt.
        assert (nx ≠ next) as Hnx1 by (intros ->; lia).
        assert (nx ≠ cur) as Hnx2 by (intros ->; lia).
        rewrite Hother by done. by rewrite lookup_insert_ne.
Qed.

Lemma make_dirs_present (parts : list string) (m : gmap string Node)
    (cur : string) :
  (∀ d part next, (d, part, next) ∈ dir_chain cur parts → is_Some (m !! next)) →
  make_dirs m cur parts = Done (m, walk cur parts).
Proof.
  revert cur. induction parts as [|p parts IH]; intros cur Hall; simpl in *.
  - done.
  - case_bool_decide as Hp; [by apply IH|].
    destruct (Hall cur p (next_dir_of cur p)) as [nd ->]; [by left|].
    apply IH. intros d part next Hin. apply (Hall d part next). by right.
Qed.

Lemma occurrences_once (name : string) (listing : list string) :
  NoDup listing → name ∈ listing → occurrences name listing = 1%nat.
Proof.
  intros Hnd Hin. unfold occurrences.
  apply NoDup_ListNoDup in Hnd.
  apply (proj1 (NoDup_count_occ' String.eq_dec listing) Hnd name).
  by apply list_elem_of_In.
Qed.

(** One call of [deploy_decoy] on a well-formed filesystem. *)
Lemma deploy_decoy_spec (s : FakeFilesystem) (path : string) (content : json) :
  wf s →
  ∃ m',
    deploy_decoy s path content
      = Done (mkFS m' (<[path := content]> (file_contents s)))
    ∧ no_duplicates m'
    ∧ extends (fs s) m'
    ∧ (∃ node, m' !! parent_dir path = Some node
               ∧ filename_of path ∈ contents node)
    ∧ (∀ d part next, (d, part, next) ∈ ancestors path →
         is_Some (m' !! next)
         ∧ (fs s !! next = None →
            ∃ node, m' !! d = Some node ∧ part ∈ contents node)).
Proof.
  intros [Hroot Hnd]. unfold deploy_decoy.
  destruct (make_dirs_spec (removelast (path_parts path)) (fs s) "/" Hroot Hnd)
    as (m1 & Hrun & [node Hlast] & Hnd1 & Hext1 & Hchain).
  rewrite Hrun. fold (parent_dir path) in *. rewrite Hlast.
  destruct (add_entry_spec m1 (parent_dir path) (filename_of path) node Hlast)
    as (m2 & node2 & Hadd & Hm2 & Hin2 & Hsub & Hnd2 & Hother).
  rewrite Hadd. exists m2.
  assert (extends m1 m2) as Hext2.
  { intros k nk Hk. destruct (decide (k = parent_dir path)) as [->|Hk'].
    - exists node2. split; [done|]. rewrite Hlast in Hk. by injection Hk as <-.
    - exists nk. by rewrite Hother. }
  split; [done|]. split.
  { intros k nk Hk. destruct (decide (k = parent_dir path)) as [->|Hk'].
    - rewrite Hm2 in Hk. injection Hk as <-. apply Hnd2. by eapply Hnd1.
    - rewrite Hother in Hk by done. by eapply Hnd1. }
  split; [by eapply extends_trans|]. split; [by exists node2|].
  intros d part next Hin. destruct (Hchain d part next Hin) as [Hsome Hnew].
  split; [by eapply extends_is_Some|].
  intros Hnone. destruct (Hnew Hnone) as (nd & Hd & Hpart).
  destruct (Hext2 d nd Hd) as (nd' & Hd' & Hsub').
  exists nd'. split; [done | by apply Hsub'].
Qed.

Lemma deploy_decoy_wf (s : FakeFilesystem) (path : string) (content : json) :
  wf s → wf (state_of (deploy_decoy s path content)).
Proof.
  intros Hwf. destruct (deploy_decoy_spec s path content Hwf)
    as (m' & -> & Hnd & Hext & _). split; simpl; [|done].
  eapply extends_is_Some; [done | apply Hwf].
Qed.

Lemma init_wf : wf init.
Proof.
  split; [by vm_compute; eauto|].
  intros d node Hd. apply (elem_of_list_to_map_2 (M := gmap string)) in Hd.
  unfold init_fs in Hd. simpl in Hd.
  repeat (apply elem_of_cons in Hd as [[= -> ->]|Hd];
          [simpl; compute_done|]).
  by apply elem_of_nil in Hd.
Qed.

Lemma reachable_wf (s : FakeFilesystem) : reachable s → wf s.
Proof. induction 1; [apply init_wf | by apply deploy_decoy_wf]. Qed.

(** C5. Deploying a decoy twice at the same path does not duplicate
    listing entries. On every filesystem the honeypot can hold (the
    constructor's, with any decoys deployed since), for every path and
    contents, both calls return, the second leaves the directory map as
    the first made it, the file name is exactly once in the listing of
    its parent directory, and every ancestor directory the first call
    had to create is there, its name exactly once in the listing of its
    own parent. *)
Theorem deploy_decoy_twice_lists_once
    (s : FakeFilesystem) (path : string) (content content' : json) :
  reachable s →
  ∃ s1 s2,
    deploy_decoy s path content = Done s1
    ∧ deploy_decoy s1 path content' = Done s2
    ∧ fs s2 = fs s1
    ∧ (∃ node, fs s2 !! parent_dir path = Some node
               ∧ occurrences (filename_of path) (contents node) = 1%nat)
    ∧ (∀ d part next, (d, part, next) ∈ ancestors path →
         fs s !! next = None →
         is_Some (fs s2 !! next)
         ∧ ∃ node, fs s2 !! d = Some node
                   ∧ occurrences part (contents node) = 1%nat).
Proof.
  intros Hwf%reachable_wf.
  destruct (deploy_decoy_spec s path content Hwf)
    as (m1 & Hrun1 & Hnd1 & Hext1 & (pnode & Hparent & Hfile) & Hchain).
  exists (mkFS m1 (<[path := content]> (file_contents s))).
  exists (mkFS m1 (<[path := content']>
                     (<[path := content]> (file_contents s)))).
  split; [done|]. split.
  { unfold deploy_decoy at 1. simpl.
    rewrite (make_dirs_present (removelast (path_parts path)) m1 "/").
    - fold (parent_dir path). rewrite Hparent.
      by rewrite (add_entry_present _ _ _ pnode).
    - intros d part next Hin. by apply (Hchain d part next). }
  simpl. split; [done|]. split.
  { exists pnode. split; [done|]. apply occurrences_once; [by eapply Hnd1|done]. }
  intros d part next Hin Hnone.
  destruct (Hchain d part next Hin) as [Hsome Hnew]. split; [done|].
  destruct (Hnew Hnone) as (nd & Hd & Hpart). exists nd. split; [done|].
  apply occurrences_once; [by eapply Hnd1|done].
Qed.

Lemma deploy_decoy_twice_witness :
  ∃ s1 s2,
    deploy_decoy init "/var/www/config.php" (JStr "DB_PASS=x") = Done s1
    ∧ deploy_decoy s1 "/var/www/config.php" (JStr "DB_PASS=y") = Done s2
    ∧ fs s2 = fs s1
    ∧ (∃ node, fs s2 !! parent_dir "/var/www/config.php" = Some node
               ∧ occurrences (filename_of "/var/www/config.php")
                             (contents node) = 1%nat)
    ∧ (∀ d part next, (d, part, next) ∈ ancestors "/var/www/config.php" →
         fs init !! next = None →
         is_Some (fs s2 !! next)
         ∧ ∃ node, fs s2 !! d = Some node
                   ∧ occurrences part (contents node) = 1%nat).
Proof.
  apply (deploy_decoy_twice_lists_once init "/var/www/config.php").
  constructor.
Defined.

End DeceptionProps.

(** * Properties of blocking, authentication and command mediation *)

Module HoneypotProps.
Import Json Deception Honeypot Scenario.

(** *** Blocklist state *)

Lemma is_blocked_global (st : State) (ip : string) (now : Z) :
  ip ∈ GLOBAL_BLOCKED_IPS st → is_blocked st ip now = (true, st).
Proof. intros Hin. unfold is_blocked. by rewrite bool_decide_eq_true_2. Qed.

Lemma is_blocked_true_keeps_state (st : State) (ip : string) (now : Z) :
  fst (is_blocked st ip now) = true → is_blocked st ip now = (true, st).
Proof.
  unfold is_blocked. case_bool_decide; [done|].
  destruct (BLOCKED_IPS st !! ip) as [e|]; [|done].
  destruct (MAX_ATTEMPTS <=? attempts e); [|done].
  by destruct (now <? until e).
Qed.

Lemma is_blocked_below_threshold (st : State) (ip : string) (now : Z) :
  ip ∉ GLOBAL_BLOCKED_IPS st → counter st ip < MAX_ATTEMPTS →
  is_blocked st ip now = (false, st).
Proof.
  intros Hg Hc. unfold is_blocked, counter in *.
  rewrite bool_decide_eq_false_2 by done.
  destruct (BLOCKED_IPS st !! ip) as [e|]; [|done]. simpl in Hc.
  by rewrite (proj2 (Z.leb_gt _ _)).
Qed.

Lemma is_blocked_local (st : State) (ip : string) (e : BlockEntry) (now : Z) :
  BLOCKED_IPS st !! ip = Some e → MAX_ATTEMPTS ≤ attempts e → now < until e →
  is_blocked st ip now = (true, st).
Proof.
  intros He Ha Hu. unfold is_blocked. case_bool_decide; [done|].
  rewrite He. rewrite (proj2 (Z.leb_le _ _)) by done.
  by rewrite (proj2 (Z.ltb_lt _ _)).
Qed.

Lemma is_blocked_expired (st : State) (ip : string) (e : BlockEntry) (now : Z) :
  ip ∉ GLOBAL_BLOCKED_IPS st →
  BLOCKED_IPS st !! ip = Some e → MAX_ATTEMPTS ≤ attempts e → until e ≤ now →
  is_blocked st ip now
  = (false, mkState (delete ip (BLOCKED_IPS st)) (GLOBAL_BLOCKED_IPS st)
                    (LOG_QUEUE st)).
Proof.
  intros Hg He Ha Hu. unfold is_blocked. rewrite bool_decide_eq_false_2 by done.
  rewrite He. rewrite (proj2 (Z.leb_le _ _)) by done.
  by rewrite (proj2 (Z.ltb_ge _ _)).
Qed.

Lemma block_ip_below (st : State) (ip : string) (now : Z) :
  counter st ip + 1 < MAX_ATTEMPTS →
  block_ip st ip now
  = mkState (<[ip := mkEntry (counter st ip + 1)
                             (until (default (mkEntry 0 0)
                                             (BLOCKED_IPS st !! ip)))]>
               (BLOCKED_IPS st))
            (GLOBAL_BLOCKED_IPS st) (LOG_QUEUE st).
Proof.
  intros Hc. unfold block_ip, counter in *.
  by rewrite (proj2 (Z.leb_gt _ _)).
Qed.

Lemma block_ip_threshold (st : State) (ip : string) (now : Z) :
  MAX_ATTEMPTS ≤ counter st ip + 1 →
  block_ip st ip now
  = mkState (<[ip := mkEntry (counter st ip + 1) (now + BLOCK_DURATION)]>
               (BLOCKED_IPS st))
            (GLOBAL_BLOCKED_IPS st) (LOG_QUEUE st ++ [block_event ip]).
Proof.
  intros Hc. unfold block_ip, counter in *.
  by rewrite (proj2 (Z.leb_le _ _)).
Qed.

Lemma block_ip_records (st : State) (ip : string) (now : Z) :
  is_Some (BLOCKED_IPS (block_ip st ip now) !! ip)
  ∧ GLOBAL_BLOCKED_IPS (block_ip st ip now) = GLOBAL_BLOCKED_IPS st
  ∧ (LOG_QUEUE (block_ip st ip now) = LOG_QUEUE st
     ∨ LOG_QUEUE (block_ip st ip now) = LOG_QUEUE st ++ [block_event ip]).
Proof.
  unfold block_ip.
  destruct (MAX_ATTEMPTS <=? _); simpl; rewrite lookup_insert_eq; eauto.
Qed.

(** *** Authentication *)

Lemma failed_attempt (st : State) (ip username password : string) (now : Z) :
  ip ∉ GLOBAL_BLOCKED_IPS st → counter st ip < MAX_ATTEMPTS →
  is_bait_cred username password = false →
  check_auth_password false st ip username password now
  = (AUTH_FAILED,
     block_ip (log_event st (login_event ip username password)) ip now).
Proof.
  intros Hg Hc Hb. unfold check_auth_password.
  rewrite is_blocked_below_threshold by done. by rewrite Hb.
Qed.

Lemma counter_log_event (st : State) (ev : LogEvent) (ip : string) :
  counter (log_event st ev) ip = counter st ip.
Proof. reflexivity. Qed.

(** Failed attempts that stay below the threshold only count. *)
Lemma failed_attempts_below (subs : list (string * string * Z))
    (st : State) (ip : string) :
  ip ∉ GLOBAL_BLOCKED_IPS st →
  counter st ip + Z.of_nat (length subs) < MAX_ATTEMPTS →
  Forall non_bait subs →
  fst (submit_all false st ip subs) = replicate (length subs) AUTH_FAILED
  ∧ counter (snd (submit_all false st ip subs)) ip
    = counter st ip + Z.of_nat (length subs)
  ∧ GLOBAL_BLOCKED_IPS (snd (submit_all false st ip subs))
    = GLOBAL_BLOCKED_IPS st
  ∧ LOG_QUEUE (snd (submit_all false st ip subs))
    = LOG_QUEUE st ++ map (login_event_of ip) subs.
Proof.
  revert st. induction subs as [|[[u p] now] subs IH]; intros st Hg Hc Hnb.
  - simpl in *. rewrite app_nil_r. repeat split; lia.
  - apply Forall_cons in Hnb as [Hb Hnb]. unfold non_bait in Hb. simpl in Hb.
    cbn [submit_all length] in *. rewrite Nat2Z.inj_succ in Hc.
    rewrite failed_attempt by (done || lia). cbn [fst snd].
    rewrite block_ip_below by (rewrite counter_log_event; lia).
    rewrite counter_log_event.
    match goal with |- context [submit_all false ?s _ _] => set (st1 := s) end.
    assert (counter st1 ip = counter st ip + 1) as Hc1.
    { unfold counter at 1. subst st1. simpl. by rewrite lookup_insert_eq. }
    destruct (IH st1) as (Hr & Hcnt & Hgl & Hlog); [done|lia|done|].
    rewrite Hr, Hcnt, Hgl, Hlog, Hc1. subst st1. simpl.
    rewrite <- app_assoc. repeat split. lia.
Qed.

(** From a counter at zero: four failed attempts do not block, the fifth
    does, and the block holds for [BLOCK_DURATION]. *)
Lemma five_attempts_from_zero (st : State) (ip : string)
    (four : list (string * string * Z)) (u5 p5 : string) (t5 : Z) :
  ip ∉ GLOBAL_BLOCKED_IPS st → BLOCKED_IPS st !! ip = None →
  length four = 4%nat → Forall non_bait four → is_bait_cred u5 p5 = false →
  let st4 := snd (submit_all false st ip four) in
  let st5 := snd (check_auth_password false st4 ip u5 p5 t5) in
  fst (submit_all false st ip four) = replicate 4 AUTH_FAILED
  ∧ fst (check_auth_password false st4 ip u5 p5 t5) = AUTH_FAILED
  ∧ (∀ t, is_blocked st4 ip t = (false, st4))
  ∧ LOG_QUEUE st4 = LOG_QUEUE st ++ map (login_event_of ip) four
  ∧ LOG_QUEUE st5 = LOG_QUEUE st4 ++ [login_event ip u5 p5; block_event ip]
  ∧ BLOCKED_IPS st5 !! ip = Some (mkEntry MAX_ATTEMPTS (t5 + BLOCK_DURATION))
  ∧ (∀ t, t < t5 + BLOCK_DURATION → is_blocked st5 ip t = (true, st5))
  ∧ (∀ t, t5 + BLOCK_DURATION ≤ t → fst (is_blocked st5 ip t) = false).
Proof.
  intros Hg Hnone Hlen Hnb Hb5 st4 st5.
  assert (counter st ip = 0) as Hc0 by (unfold counter; by rewrite Hnone).
  destruct (failed_attempts_below four st ip) as (Hr & Hcnt & Hgl & Hlog);
    [done | rewrite Hc0, Hlen; unfold MAX_ATTEMPTS; lia | done |].
  fold st4 in Hcnt, Hgl, Hlog. rewrite Hlen, Hc0 in Hcnt. rewrite Hlen in Hr.
  assert (ip ∉ GLOBAL_BLOCKED_IPS st4) as Hg4 by (by rewrite Hgl).
  assert (check_auth_password false st4 ip u5 p5 t5
          = (AUTH_FAILED,
             mkState (<[ip := mkEntry MAX_ATTEMPTS (t5 + BLOCK_DURATION)]>
                        (BLOCKED_IPS st4))
                     (GLOBAL_BLOCKED_IPS st4)
                     (LOG_QUEUE st4 ++ [login_event ip u5 p5; block_event ip])))
    as H5.
  { rewrite failed_attempt; [|done|rewrite Hcnt; unfold MAX_ATTEMPTS; lia|done].
    rewrite block_ip_threshold
      by (rewrite counter_log_event, Hcnt; unfold MAX_ATTEMPTS; lia).
    rewrite counter_log_event, Hcnt. simpl. by rewrite <- app_assoc. }
  subst st5. rewrite H5. cbn [fst snd LOG_QUEUE BLOCKED_IPS].
  split; [done|]. split; [done|]. split.
  { intros t. apply is_blocked_below_threshold; [done|].
    rewrite Hcnt. unfold MAX_ATTEMPTS. lia. }
  split; [done|]. split; [done|]. split; [apply lookup_insert_eq|]. split.
  - intros t Ht. eapply is_blocked_local; [apply lookup_insert_eq|done|done].
  - intros t Ht. erewrite is_blocked_expired;
      [done|done|apply lookup_insert_eq|done|done].
Qed.

(** C2. After exactly five failed attempts with credentials that are not
    bait (so [ALLOW_ALL_CREDS] is off: with it on no attempt fails),
    counted from zero by an address that is not in the global set, the
    address is blocked: each of the five fails, none of the first four blocks or logs a BLOCK event, the
    fifth sets [until] to its instant plus [BLOCK_DURATION] (60 s) and
    puts the BLOCK event on the queue right after its own LOGIN_ATTEMPT,
    and from then on [is_blocked] answers true, leaving the state alone,
    at every instant before [until], and false from [until] on. *)
Theorem block_after_five_failed_attempts (st : State) (ip : string)
    (four : list (string * string * Z)) (u5 p5 : string) (t5 : Z) :
  ip ∉ GLOBAL_BLOCKED_IPS st → BLOCKED_IPS st !! ip = None →
  length four = 4%nat → Forall non_bait four → is_bait_cred u5 p5 = false →
  let st4 := snd (submit_all false st ip four) in
  let st5 := snd (check_auth_password false st4 ip u5 p5 t5) in
  fst (submit_all false st ip four) = replicate 4 AUTH_FAILED
  ∧ fst (check_auth_password false st4 ip u5 p5 t5) = AUTH_FAILED
  ∧ (∀ t, is_blocked st4 ip t = (false, st4))
  ∧ LOG_QUEUE st4 = LOG_QUEUE st ++ map (login_event_of ip) four
  ∧ LOG_QUEUE st5 = LOG_QUEUE st4 ++ [login_event ip u5 p5; block_event ip]
  ∧ BLOCKED_IPS st5 !! ip = Some (mkEntry MAX_ATTEMPTS (t5 + BLOCK_DURATION))
  ∧ (∀ t, t < t5 + BLOCK_DURATION → is_blocked st5 ip t = (true, st5))
  ∧ (∀ t, t5 + BLOCK_DURATION ≤ t → fst (is_blocked st5 ip t) = false).
Proof. apply five_attempts_from_zero. Qed.

Lemma block_after_five_witness :
  let st4 := snd (submit_all false st0 attacker four_failures) in
  let st5 := snd (check_auth_password false st4 attacker "test" "test" 5) in
  fst (submit_all false st0 attacker four_failures) = replicate 4 AUTH_FAILED
  ∧ fst (check_auth_password false st4 attacker "test" "test" 5) = AUTH_FAILED
  ∧ (∀ t, is_blocked st4 attacker t = (false, st4))
  ∧ LOG_QUEUE st4
    = LOG_QUEUE st0 ++ map (login_event_of attacker) four_failures
  ∧ LOG_QUEUE st5
    = LOG_QUEUE st4 ++ [login_event attacker "test" "test"; block_event attacker]
  ∧ BLOCKED_IPS st5 !! attacker
    = Some (mkEntry MAX_ATTEMPTS (5 + BLOCK_DURATION))
  ∧ (∀ t, t < 5 + BLOCK_DURATION → is_blocked st5 attacker t = (true, st5))
  ∧ (∀ t, 5 + BLOCK_DURATION ≤ t → fst (is_blocked st5 attacker t) = false).
Proof.
  apply (block_after_five_failed_attempts st0 attacker four_failures
           "test" "test" 5).
  - simpl. set_solver.
  - reflexivity.
  - reflexivity.
  - unfold four_failures, non_bait. repeat constructor.
  - reflexivity.
Defined.

(** C6. Bait credentials, [admin]/[admin] and [root]/[1234], authenticate
    an address that is not blocked, whatever [ALLOW_ALL_CREDS] is. *)
Theorem bait_credentials_authenticate (ALLOW_ALL_CREDS : bool) (st : State)
    (ip username password : string) (now : Z) :
  fst (is_blocked st ip now) = false →
  (username, password) ∈ [("admin", "admin"); ("root", "1234")] →
  fst (check_auth_password ALLOW_ALL_CREDS st ip username password now)
  = AUTH_SUCCESSFUL.
Proof.
  intros Hnb Hbait. unfold check_auth_password.
  destruct (is_blocked st ip now) as [blocked st1]. simpl in Hnb. subst blocked.
  assert (is_bait_cred username password = true) as ->.
  { apply elem_of_cons in Hbait as [[= -> ->]|Hbait]; [reflexivity|].
    apply elem_of_cons in Hbait as [[= -> ->]|Hbait]; [reflexivity|].
    by apply elem_of_nil in Hbait. }
  by rewrite orb_true_r.
Qed.

Lemma bait_credentials_witness :
  fst (check_auth_password false st0 attacker "root" "1234" 7) = AUTH_SUCCESSFUL
  ∧ fst (check_auth_password true st0 attacker "admin" "admin" 7)
    = AUTH_SUCCESSFUL.
Proof.
  split.
  - apply (bait_credentials_authenticate false st0 attacker "root" "1234" 7).
    + reflexivity.
    + set_solver.
  - apply (bait_credentials_authenticate true st0 attacker "admin" "admin" 7).
    + reflexivity.
    + set_solver.
Defined.

(** C7. A credential submission from a blocked address fails and changes
    nothing: the state returned is the state given, so the attempt
    counter is what it was and no LOGIN_ATTEMPT entry is queued. *)
Theorem blocked_submission_changes_nothing (ALLOW_ALL_CREDS : bool)
    (st : State) (ip username password : string) (now : Z) :
  fst (is_blocked st ip now) = true →
  check_auth_password ALLOW_ALL_CREDS st ip username password now
  = (AUTH_FAILED, st)
  ∧ counter (snd (check_auth_password ALLOW_ALL_CREDS st ip username
                                      password now)) ip
    = counter st ip
  ∧ LOG_QUEUE (snd (check_auth_password ALLOW_ALL_CREDS st ip username
                                        password now))
    = LOG_QUEUE st.
Proof.
  intros Hb. apply is_blocked_true_keeps_state in Hb.
  unfold check_auth_password. by rewrite Hb.
Qed.

Lemma blocked_submission_witness :
  check_auth_password false after_five attacker "blocked_user" "blocked_pass" 6
  = (AUTH_FAILED, after_five)
  ∧ counter (snd (check_auth_password false after_five attacker
                    "blocked_user" "blocked_pass" 6)) attacker
    = counter after_five attacker
  ∧ LOG_QUEUE (snd (check_auth_password false after_five attacker
                      "blocked_user" "blocked_pass" 6))
    = LOG_QUEUE after_five.
Proof.
  apply (blocked_submission_changes_nothing false after_five attacker
           "blocked_user" "blocked_pass" 6).
  by vm_compute.
Defined.

(** C9 as stated fails for an address that is also in the
    global set: after four failed logins and a BLOCK verdict at instant
    10 the local entry has five attempts and [until = 70]; at instant 100
    it has expired, yet [is_blocked] answers true and keeps the entry. *)
Lemma expired_entry_of_globally_blocked_ip :
  BLOCKED_IPS after_block_verdict !! attacker = Some (mkEntry 5 70)
  ∧ MAX_ATTEMPTS ≤ 5 ∧ 70 < 100
  ∧ fst (is_blocked after_block_verdict attacker 100) = true
  ∧ BLOCKED_IPS (snd (is_blocked after_block_verdict attacker 100)) !! attacker
    = Some (mkEntry 5 70).
Proof. by vm_compute. Qed.

(** C9 (amended). For an address that is not in the global set and whose
    local block has expired (attempts at or above the threshold, [until]
    not after now), [is_blocked] answers false and deletes the entry; the
    counter is back at zero, so that four further failed attempts neither
    block nor log a BLOCK event, and the fifth blocks again. *)
Theorem expired_block_is_cleared (st : State) (ip : string) (e : BlockEntry)
    (now : Z) :
  ip ∉ GLOBAL_BLOCKED_IPS st →
  BLOCKED_IPS st !! ip = Some e → MAX_ATTEMPTS ≤ attempts e → until e ≤ now →
  let st' := snd (is_blocked st ip now) in
  fst (is_blocked st ip now) = false
  ∧ BLOCKED_IPS st' = delete ip (BLOCKED_IPS st)
  ∧ BLOCKED_IPS st' !! ip = None
  ∧ counter st' ip = 0
  ∧ ∀ (four : list (string * string * Z)) (u5 p5 : string) (t5 : Z),
      length four = 4%nat → Forall non_bait four →
      is_bait_cred u5 p5 = false →
      let st4 := snd (submit_all false st' ip four) in
      let st5 := snd (check_auth_password false st4 ip u5 p5 t5) in
      (∀ t, is_blocked st4 ip t = (false, st4))
      ∧ LOG_QUEUE st4 = LOG_QUEUE st ++ map (login_event_of ip) four
      ∧ LOG_QUEUE st5
        = LOG_QUEUE st4 ++ [login_event ip u5 p5; block_event ip]
      ∧ BLOCKED_IPS st5 !! ip
        = Some (mkEntry MAX_ATTEMPTS (t5 + BLOCK_DURATION))
      ∧ (∀ t, t < t5 + BLOCK_DURATION → is_blocked st5 ip t = (true, st5)).
Proof.
  intros Hg He Ha Hu st'. subst st'.
  rewrite (is_blocked_expired st ip e now) by done. cbn [fst snd BLOCKED_IPS].
  split; [done|]. split; [done|]. split; [apply lookup_delete_eq|]. split.
  { unfold counter. simpl. by rewrite lookup_delete_eq. }
  intros four u5 p5 t5 Hlen Hnb Hb5.
  pose proof (five_attempts_from_zero
                (mkState (delete ip (BLOCKED_IPS st)) (GLOBAL_BLOCKED_IPS st)
                         (LOG_QUEUE st))
                ip four u5 p5 t5) as H5.
  simpl in H5.
  destruct H5 as (_ & _ & H4 & Hl4 & Hl5 & He5 & Hb & _);
    [done | apply lookup_delete_eq | done | done | done |].
  by repeat split.
Qed.

Lemma expired_block_witness :
  let st' := snd (is_blocked after_five attacker 65) in
  fst (is_blocked after_five attacker 65) = false
  ∧ BLOCKED_IPS st' = delete attacker (BLOCKED_IPS after_five)
  ∧ BLOCKED_IPS st' !! attacker = None
  ∧ counter st' attacker = 0
  ∧ ∀ (four : list (string * string * Z)) (u5 p5 : string) (t5 : Z),
      length four = 4%nat → Forall non_bait four →
      is_bait_cred u5 p5 = false →
      let st4 := snd (submit_all false st' attacker four) in
      let st5 := snd (check_auth_password false st4 attacker u5 p5 t5) in
      (∀ t, is_blocked st4 attacker t = (false, st4))
      ∧ LOG_QUEUE st4
        = LOG_QUEUE after_five ++ map (login_event_of attacker) four
      ∧ LOG_QUEUE st5
        = LOG_QUEUE st4 ++ [login_event attacker u5 p5; block_event attacker]
      ∧ BLOCKED_IPS st5 !! attacker
        = Some (mkEntry MAX_ATTEMPTS (t5 + BLOCK_DURATION))
      ∧ (∀ t, t < t5 + BLOCK_DURATION → is_blocked st5 attacker t = (true, st5)).
Proof.
  apply (expired_block_is_cleared after_five attacker (mkEntry 5 65) 65).
  - by vm_compute.
  - by vm_compute.
  - by vm_compute.
  - simpl. lia.
Defined.

(** *** Command mediation *)

Lemma cmd_cd_keeps_fs (sim : CommandSimulator) (args : list string) :
  sim_fs (fst (_cmd_cd sim args)) = sim_fs sim.
Proof.
  unfold _cmd_cd. destruct args as [|a args]; [done|].
  by destruct (is_dir _ _).
Qed.

Lemma execute_command_keeps_fs (sim : CommandSimulator) (cmd_line : string) :
  sim_fs (fst (execute_command sim cmd_line)) = sim_fs sim.
Proof.
  unfold execute_command.
  destruct (PyStr.split_ws _) as [|cmd args]; [done|].
  repeat (destruct (PyStr.eqb cmd _); [done || apply cmd_cd_keeps_fs|]).
  done.
Qed.

Lemma with_fs_same (sim : CommandSimulator) : with_fs sim (sim_fs sim) = sim.
Proof. by destruct sim. Qed.

Lemma run_command_facts (ip : string) (st : State) (ss : Session)
    (cmd : string) :
  simulator (snd (fst (run_command ip st ss cmd)))
  = fst (execute_command (simulator ss) cmd)
  ∧ posted (snd (fst (run_command ip st ss cmd))) = posted ss
  ∧ session_history (snd (fst (run_command ip st ss cmd)))
    = session_history ss
  ∧ BLOCKED_IPS (fst (fst (run_command ip st ss cmd))) = BLOCKED_IPS st
  ∧ GLOBAL_BLOCKED_IPS (fst (fst (run_command ip st ss cmd)))
    = GLOBAL_BLOCKED_IPS st
  ∧ (snd (run_command ip st ss cmd) = Exit
     ↔ snd (execute_command (simulator ss) cmd) = JStr "EXIT")
  ∧ (snd (run_command ip st ss cmd) = Crashed
     ↔ ∀ out, snd (execute_command (simulator ss) cmd) ≠ JStr out).
Proof.
  unfold run_command.
  destruct (snd (execute_command (simulator ss) cmd)) as [| | |out| |];
    try (repeat split; simpl; (done || (intros H; by (try specialize (H ""))))).
  destruct (PyStr.eqb out "EXIT") eqn:Hout; unfold PyStr.eqb in Hout.
  - apply bool_decide_eq_true in Hout as ->.
    repeat split; simpl; try done. intros H. by specialize (H "EXIT").
  - apply bool_decide_eq_false in Hout.
    repeat split; simpl; try done.
    + by intros [= ->].
    + intros H. by specialize (H out).
Qed.

Lemma evaluate_reply_failure (fs0 : FakeFilesystem) (reply : OracleReply) :
  call_fails reply = true → evaluate_reply fs0 reply = Some fs0.
Proof.
  destruct reply as [| |status_code body]; simpl; [done|done|].
  destruct (status_code =? 200); simpl; [|done].
  destruct body as [[| | | | |members]|]; try done.
  unfold get. intros [Hact Hdecoy]%andb_true_iff.
  apply negb_true_iff in Hact. rewrite Hact.
  destruct (lookup_member "dynamic_decoy" members) as [[| | | | |]|];
    simpl in *; done.
Qed.

(** C1. When the oracle call fails the command is still executed, no
    decoy is deployed and the session is not ended by the failure: the
    step is the one taken with no oracle configured, apart from the
    request having been posted. The interpreter runs the command on the
    session's simulator, the filesystem is the one the session had, the
    block map and the global set are untouched, and the loop is left
    only if the interpreter's own result demands it (the result [EXIT],
    or a result that is not text). *)
Theorem oracle_failure_fails_open (notice_sent : Notice)
    (oracle : EvalPayload → OracleReply)
    (ip : string) (st : State) (ss : Session) (now : Z) :
  let cmd := PyStr.strip PyStr.is_space (buf ss) in
  let payload :=
    make_payload ip cmd (session_history ss ++ [mkHist cmd]) (simulator ss) in
  cmd ≠ "" →
  call_fails (oracle payload) = true →
  ∃ st' ss' flow,
    on_enter notice_sent (Some oracle) ip st ss now = (st', ss', flow)
    ∧ posted ss' = posted ss ++ [payload]
    ∧ on_enter notice_sent None ip st ss now
      = (st',
         mkSession (simulator ss') (buf ss') (session_history ss') (chan ss')
                   (posted ss),
         flow)
    ∧ simulator ss' = fst (execute_command (simulator ss) cmd)
    ∧ sim_fs (simulator ss') = sim_fs (simulator ss)
    ∧ BLOCKED_IPS st' = BLOCKED_IPS st
    ∧ GLOBAL_BLOCKED_IPS st' = GLOBAL_BLOCKED_IPS st
    ∧ (flow = Exit ↔ snd (execute_command (simulator ss) cmd) = JStr "EXIT")
    ∧ (flow = Crashed
       ↔ ∀ out, snd (execute_command (simulator ss) cmd) ≠ JStr out).
Proof.
  intros cmd payload Hcmd Hfail. unfold on_enter. fold cmd.
  assert (PyStr.eqb cmd "" = false) as ->
    by (by apply bool_decide_eq_false_2).
  fold payload. rewrite (evaluate_reply_failure _ _ Hfail), with_fs_same.
  set (ss1 := mkSession (simulator ss) (buf ss)
                (session_history ss ++ [mkHist cmd]) (chan ss ++ [CRLF])
                (posted ss ++ [payload])).
  set (ss0 := mkSession (simulator ss) (buf ss)
                (session_history ss ++ [mkHist cmd]) (chan ss ++ [CRLF])
                (posted ss)).
  destruct (run_command_facts ip st ss1 cmd)
    as (Hsim & Hposted & _ & Hb & Hg & Hexit & Hcrash).
  destruct (run_command ip st ss1 cmd) as [[st' ss'] flow] eqn:Hrun.
  simpl in *. exists st', ss', flow.
  split; [done|]. split; [done|]. split.
  { revert Hrun. unfold run_command. simpl.
    destruct (snd (execute_command (simulator ss) cmd)) as [| | |out| |];
      try (by intros [= <- <- <-]).
    destruct (PyStr.eqb out "EXIT"); [by intros [= <- <- <-]|].
    by intros [= <- <- <-]. }
  split; [done|]. split; [by rewrite Hsim, execute_command_keeps_fs|].
  done.
Qed.

Lemma oracle_failure_witness :
  let cmd := PyStr.strip PyStr.is_space (buf (typed "ls /etc")) in
  let payload :=
    make_payload attacker cmd
      (session_history (typed "ls /etc") ++ [mkHist cmd])
      (simulator (typed "ls /etc")) in
  ∃ st' ss' flow,
    on_enter notice_delivered (Some oracle_down) attacker st0 (typed "ls /etc") 0
    = (st', ss', flow)
    ∧ posted ss' = posted (typed "ls /etc") ++ [payload]
    ∧ on_enter notice_delivered None attacker st0 (typed "ls /etc") 0
      = (st',
         mkSession (simulator ss') (buf ss') (session_history ss') (chan ss')
                   (posted (typed "ls /etc")),
         flow)
    ∧ simulator ss'
      = fst (execute_command (simulator (typed "ls /etc")) cmd)
    ∧ sim_fs (simulator ss') = sim_fs (simulator (typed "ls /etc"))
    ∧ BLOCKED_IPS st' = BLOCKED_IPS st0
    ∧ GLOBAL_BLOCKED_IPS st' = GLOBAL_BLOCKED_IPS st0
    ∧ (flow = Exit
       ↔ snd (execute_command (simulator (typed "ls /etc")) cmd)
         = JStr "EXIT")
    ∧ (flow = Crashed
       ↔ ∀ out,
           snd (execute_command (simulator (typed "ls /etc")) cmd)
           ≠ JStr out).
Proof.
  apply (oracle_failure_fails_open notice_delivered oracle_down attacker st0
           (typed "ls /etc") 0).
  - by vm_compute.
  - reflexivity.
Defined.

Lemma evaluate_reply_block (fs0 : FakeFilesystem) (decision : json) :
  get decision "action" (JStr "ALLOW") = Some (JStr "BLOCK") →
  evaluate_reply fs0 (Response 200 (Some decision)) = None.
Proof. intros Hact. simpl. by rewrite Hact. Qed.

(** On a BLOCK verdict (status 200, an object whose [action] is
    ["BLOCK"]) whose termination notice goes through, the gateway counts
    the address in the local block map, adds it to the global set in the
    same step, so that [is_blocked] is true of it at once and at every
    instant, and leaves the loop with the session's simulator untouched:
    the command is not executed, nothing of it is printed or logged. *)
Lemma block_verdict_ends_session (notice_sent : Notice)
    (oracle : EvalPayload → OracleReply)
    (ip : string) (st : State) (ss : Session) (now : Z) (decision : json) :
  let cmd := PyStr.strip PyStr.is_space (buf ss) in
  let payload :=
    make_payload ip cmd (session_history ss ++ [mkHist cmd]) (simulator ss) in
  cmd ≠ "" →
  oracle payload = Response 200 (Some decision) →
  get decision "action" (JStr "ALLOW") = Some (JStr "BLOCK") →
  notice_sent payload = true →
  ∃ st' ss',
    on_enter notice_sent (Some oracle) ip st ss now = (st', ss', Exit)
    ∧ chan ss' = chan ss ++ [CRLF; termination_notice]
    ∧ is_Some (BLOCKED_IPS st' !! ip)
    ∧ counter st' ip = counter st ip + 1
    ∧ GLOBAL_BLOCKED_IPS st' = GLOBAL_BLOCKED_IPS st ∪ {[ip]}
    ∧ ip ∈ GLOBAL_BLOCKED_IPS st'
    ∧ (∀ t, is_blocked st' ip t = (true, st'))
    ∧ simulator ss' = simulator ss
    ∧ (LOG_QUEUE st' = LOG_QUEUE st
       ∨ LOG_QUEUE st' = LOG_QUEUE st ++ [block_event ip]).
Proof.
  intros cmd payload Hcmd Hreply Hact Hsent. unfold on_enter. fold cmd.
  assert (PyStr.eqb cmd "" = false) as ->
    by (by apply bool_decide_eq_false_2).
  fold payload. rewrite Hreply, (evaluate_reply_block _ _ Hact), Hsent.
  destruct (block_ip_records st ip now) as (Hentry & Hglobal & Hlog).
  eexists _, _. split; [reflexivity|]. simpl.
  split; [by rewrite <- app_assoc|]. split; [done|]. split.
  { unfold block_ip, counter.
    destruct (MAX_ATTEMPTS <=? _); simpl; by rewrite lookup_insert_eq. }
  split; [by rewrite Hglobal|].
  assert (ip ∈ GLOBAL_BLOCKED_IPS (block_ip st ip now) ∪ {[ip]}) as Hin
    by (apply elem_of_union; right; by apply elem_of_singleton).
  split; [done|]. split; [|done].
  intros t. by apply is_blocked_global.
Qed.

Lemma block_verdict_witness :
  ∃ st' ss',
    on_enter notice_delivered (Some oracle_blocks) attacker st0 (typed "rm -rf /") 10
    = (st', ss', Exit)
    ∧ chan ss' = chan (typed "rm -rf /") ++ [CRLF; termination_notice]
    ∧ is_Some (BLOCKED_IPS st' !! attacker)
    ∧ counter st' attacker = counter st0 attacker + 1
    ∧ GLOBAL_BLOCKED_IPS st' = GLOBAL_BLOCKED_IPS st0 ∪ {[attacker]}
    ∧ attacker ∈ GLOBAL_BLOCKED_IPS st'
    ∧ (∀ t, is_blocked st' attacker t = (true, st'))
    ∧ simulator ss' = simulator (typed "rm -rf /")
    ∧ (LOG_QUEUE st' = LOG_QUEUE st0
       ∨ LOG_QUEUE st' = LOG_QUEUE st0 ++ [block_event attacker]).
Proof.
  apply (block_verdict_ends_session notice_delivered oracle_blocks attacker
           st0 (typed "rm -rf /") 10
           (JObj [("action", JStr "BLOCK");
                  ("reason", JStr "destructive command");
                  ("risk_score", JNum 95)])).
  - by vm_compute.
  - reflexivity.
  - reflexivity.
  - reflexivity.
Defined.

(** When the send of the notice raises, the BLOCK verdict is lost: the
    exception is swallowed by the [except] of the oracle call and the
    step is the one of a failed call: the command is executed, the
    address is neither counted nor added to the global set. *)
Lemma block_verdict_lost_without_notice (notice_sent : Notice)
    (oracle : EvalPayload → OracleReply) (ip : string) (st : State)
    (ss : Session) (now : Z) (decision : json) :
  let cmd := PyStr.strip PyStr.is_space (buf ss) in
  let payload :=
    make_payload ip cmd (session_history ss ++ [mkHist cmd]) (simulator ss) in
  cmd ≠ "" →
  oracle payload = Response 200 (Some decision) →
  get decision "action" (JStr "ALLOW") = Some (JStr "BLOCK") →
  notice_sent payload = false →
  on_enter notice_sent (Some oracle) ip st ss now
  = run_command ip st
      (mkSession (simulator ss) (buf ss) (session_history ss ++ [mkHist cmd])
                 (chan ss ++ [CRLF]) (posted ss ++ [payload]))
      cmd
  ∧ BLOCKED_IPS (fst (fst (on_enter notice_sent (Some oracle) ip st ss now)))
    = BLOCKED_IPS st
  ∧ GLOBAL_BLOCKED_IPS
      (fst (fst (on_enter notice_sent (Some oracle) ip st ss now)))
    = GLOBAL_BLOCKED_IPS st
  ∧ simulator (snd (fst (on_enter notice_sent (Some oracle) ip st ss now)))
    = fst (execute_command (simulator ss) cmd).
Proof.
  intros cmd payload Hcmd Hreply Hact Hsent.
  assert (on_enter notice_sent (Some oracle) ip st ss now
          = run_command ip st
              (mkSession (simulator ss) (buf ss)
                 (session_history ss ++ [mkHist cmd]) (chan ss ++ [CRLF])
                 (posted ss ++ [payload]))
              cmd) as Hstep.
  { unfold on_enter. fold cmd.
    assert (PyStr.eqb cmd "" = false) as ->
      by (by apply bool_decide_eq_false_2).
    fold payload. by rewrite Hreply, (evaluate_reply_block _ _ Hact), Hsent. }
  rewrite Hstep. split; [done|].
  match goal with |- context [run_command ?a ?b ?c ?d] =>
    destruct (run_command_facts a b c d) as (Hsim & _ & _ & Hb & Hg & _) end.
  done.
Qed.

(** C3. The claim fails on the code when the send of the termination
    notice raises (the client has gone while the oracle was asked): for
    the command [rm -rf /] and a BLOCK verdict, the command is executed
    by the interpreter and logged as executed, no block is logged, and
    the address is in neither the block map nor the global set, so that
    [is_blocked] is false of it at every instant. *)
Theorem block_verdict_with_failed_notice :
  let st' :=
    fst (fst (on_enter notice_fails (Some oracle_blocks) attacker st0
                (typed "rm -rf /") 10)) in
  oracle_blocks
    (make_payload attacker "rm -rf /" [mkHist "rm -rf /"]
                  (simulator (typed "rm -rf /")))
  = Response 200 (Some (JObj [("action", JStr "BLOCK");
                              ("reason", JStr "destructive command");
                              ("risk_score", JNum 95)]))
  ∧ BLOCKED_IPS st' !! attacker = None
  ∧ (attacker ∉ GLOBAL_BLOCKED_IPS st')
  ∧ (∀ t, fst (is_blocked st' attacker t) = false)
  ∧ LOG_QUEUE st'
    = LOG_QUEUE st0
      ++ [cmd_exec_event attacker "rm -rf /" (JStr "rm: command not found")].
Proof.
  split; [by vm_compute|]. split; [by vm_compute|]. split; [by vm_compute|].
  split; [intros t; by vm_compute|]. by vm_compute.
Qed.

Lemma feed_app (notice_sent : Notice)
    (CONTROLLER_URL : Controller) (ip : string) (now : Z)
    (chars1 chars2 : list ascii) (st : State) (ss : Session) :
  feed notice_sent CONTROLLER_URL ip st ss now (chars1 ++ chars2)
  = match feed notice_sent CONTROLLER_URL ip st ss now chars1 with
    | (st', ss', Continue) => feed notice_sent CONTROLLER_URL ip st' ss' now chars2
    | stop => stop
    end.
Proof.
  revert st ss. induction chars1 as [|c chars1 IH]; intros st ss; simpl.
  - done.
  - destruct (feed_char notice_sent CONTROLLER_URL ip st ss now c) as [[st' ss'] []];
      by rewrite ?IH.
Qed.

(** One unknown command entered in a session whose oracle allows
    everything: it is answered "command not found" and the request
    carries the history with this command added. *)
Lemma feed_unknown_command (notice_sent : Notice)
    (ip : string) (st : State) (now : Z)
    (filesystem : FakeFilesystem) (cp h u : string)
    (history : list HistoryEntry) (sent : list string)
    (requests : list EvalPayload) :
  ∃ st' sent',
    feed notice_sent (Some oracle_allows) ip st
      (mkSession (mkSim filesystem cp h u) "" history sent requests) now
      (lines ["x"])
    = (st',
       mkSession (mkSim filesystem cp h u) "" (history ++ [mkHist "x"]) sent'
         (requests
          ++ [make_payload ip "x" (history ++ [mkHist "x"])
                (mkSim filesystem cp h u)]),
       Continue).
Proof. eexists _, _. reflexivity. Qed.

Lemma feed_unknown_commands (notice_sent : Notice)
    (n : nat) (ip : string) (now : Z)
    (filesystem : FakeFilesystem) (cp h u : string) :
  ∀ (st : State) (history : list HistoryEntry) (sent : list string)
    (requests : list EvalPayload),
  ∃ st' sent' requests',
    feed notice_sent (Some oracle_allows) ip st
      (mkSession (mkSim filesystem cp h u) "" history sent requests) now
      (lines (replicate (S n) "x"))
    = (st',
       mkSession (mkSim filesystem cp h u) ""
         (history ++ replicate (S n) (mkHist "x")) sent'
         (requests'
          ++ [make_payload ip "x" (history ++ replicate (S n) (mkHist "x"))
                (mkSim filesystem cp h u)]),
       Continue).
Proof.
  induction n as [|n IH]; intros st history sent requests.
  - destruct (feed_unknown_command notice_sent ip st now filesystem cp h u history sent
                requests) as (st' & sent' & Hrun).
    by exists st', sent', requests.
  - change (lines (replicate (S (S n)) "x"))
      with (lines ["x"] ++ lines (replicate (S n) "x")).
    rewrite feed_app.
    destruct (feed_unknown_command notice_sent ip st now filesystem cp h u history sent
                requests) as (st1 & sent1 & ->).
    destruct (IH st1 (history ++ [mkHist "x"]) sent1
                (requests
                 ++ [make_payload ip "x" (history ++ [mkHist "x"])
                       (mkSim filesystem cp h u)]))
      as (st' & sent' & requests' & ->).
    exists st', sent', requests'. by rewrite <- !app_assoc.
Qed.

(** No bound holds for the history of a request: a session of [bound + 1]
    commands posts a request with [bound + 1] entries. *)
Lemma request_history_has_no_bound (bound : nat) :
  ∃ (chars : list ascii) (request : EvalPayload),
    request
    ∈ posted (snd (fst (feed notice_delivered (Some oracle_allows) attacker st0
                          (new_session init) 0 chars)))
    ∧ (bound < length (p_history request))%nat.
Proof.
  destruct (feed_unknown_commands notice_delivered bound attacker 0 init "/root" "server01"
              "root" st0 [] (chan (new_session init)) [])
    as (st' & sent' & requests' & Hrun).
  exists (lines (replicate (S bound) "x")). eexists.
  change (new_session init)
    with (mkSession (mkSim init "/root" "server01" "root") "" []
            (chan (new_session init)) []).
  rewrite Hrun. cbn [fst snd posted]. split.
  - apply elem_of_app. right. by apply list_elem_of_singleton.
  - cbn [p_history make_payload app]. rewrite length_replicate. lia.
Qed.

(** C8 as stated fails: in a session of five commands the
    five requests carry histories of one, two, three, four and five
    commands; the last is the whole history of the session, not a tail
    of it. Nor is there a bound that the history of every request
    respects. *)
Lemma request_history_is_not_a_tail :
  let ss :=
    snd (fst (feed notice_delivered (Some oracle_allows) attacker st0 (new_session init) 0
                (lines ["whoami"; "id"; "uname -a"; "ls /etc";
                        "cat /etc/passwd"]))) in
  map (λ request, map command (p_history request)) (posted ss)
  = [ ["whoami"];
      ["whoami"; "id"];
      ["whoami"; "id"; "uname -a"];
      ["whoami"; "id"; "uname -a"; "ls /etc"];
      ["whoami"; "id"; "uname -a"; "ls /etc"; "cat /etc/passwd"] ]
  ∧ (p_history <$> last (posted ss)) = Some (session_history ss)
  ∧ length (session_history ss) = 5%nat
  ∧ ¬ (∃ bound : nat,
         ∀ (chars : list ascii) (request : EvalPayload),
           request
           ∈ posted (snd (fst (feed notice_delivered (Some oracle_allows) attacker st0
                                 (new_session init) 0 chars))) →
           (length (p_history request) ≤ bound)%nat).
Proof.
  split; [by vm_compute|]. split; [by vm_compute|]. split; [by vm_compute|].
  intros [bound Hbound].
  destruct (request_history_has_no_bound bound)
    as (chars & request & Hin & Hlt).
  specialize (Hbound chars request Hin). lia.
Qed.

(** C8 (amended). The request posted for a command carries the whole
    history of the session: every command entered so far, in order, the
    current one last; it is one entry longer than the history before the
    command, whatever its length. *)
Theorem request_history_is_whole_history (notice_sent : Notice)
    (oracle : EvalPayload → OracleReply)
    (ip : string) (st : State) (ss : Session) (now : Z) :
  let cmd := PyStr.strip PyStr.is_space (buf ss) in
  let ss' := snd (fst (on_enter notice_sent (Some oracle) ip st ss now)) in
  cmd ≠ "" →
  ∃ request,
    posted ss' = posted ss ++ [request]
    ∧ p_ip request = ip
    ∧ p_command request = cmd
    ∧ p_history request = session_history ss ++ [mkHist cmd]
    ∧ p_history request = session_history ss'
    ∧ length (p_history request) = S (length (session_history ss)).
Proof.
  intros cmd ss' Hcmd. subst ss'. unfold on_enter. fold cmd.
  assert (PyStr.eqb cmd "" = false) as ->
    by (by apply bool_decide_eq_false_2).
  set (request := make_payload ip cmd (session_history ss ++ [mkHist cmd])
                    (simulator ss)).
  exists request.
  assert (length (p_history request) = S (length (session_history ss))) as Hlen.
  { simpl. rewrite length_app. simpl. lia. }
  destruct (evaluate_reply _ _) as [fs'|];
    [|destruct (notice_sent request); [done|]];
    match goal with |- context [run_command ?a ?b ?c ?d] =>
      destruct (run_command_facts a b c d) as (_ & -> & -> & _) end;
    done.
Qed.

Lemma request_history_witness :
  let cmd := PyStr.strip PyStr.is_space (buf (typed "  uname -a ")) in
  let ss' :=
    snd (fst (on_enter notice_delivered (Some oracle_allows) attacker st0
                (typed "  uname -a ") 0)) in
  ∃ request,
    posted ss' = posted (typed "  uname -a ") ++ [request]
    ∧ p_ip request = attacker
    ∧ p_command request = cmd
    ∧ p_history request
      = session_history (typed "  uname -a ") ++ [mkHist cmd]
    ∧ p_history request = session_history ss'
    ∧ length (p_history request)
      = S (length (session_history (typed "  uname -a "))).
Proof.
  apply (request_history_is_whole_history notice_delivered oracle_allows attacker st0
           (typed "  uname -a ") 0).
  by vm_compute.
Defined.

End HoneypotProps.

(** * Further properties of the virtual filesystem and the simulator *)

Module DeceptionExtra.
Import Json Deception Shapes DeceptionProps.

(** *** Splitting and joining on [/] *)

Lemma split_slash_free_parts (s : string) :
  Forall slash_free (PyStr.split slash s).
Proof.
  induction s as [|c s IH]; simpl.
  - by repeat constructor.
  - destruct (Ascii.eqb c slash) eqn:Hc.
    + by constructor.
    + apply Ascii.eqb_neq in Hc.
      destruct (PyStr.split slash s) as [|h t]; [by repeat constructor|].
      apply Forall_cons in IH as [Hh Ht]. by repeat constructor.
Qed.

Lemma append_cons (c : ascii) (a b : string) :
  String c a +:+ b = String c (a +:+ b).
Proof. reflexivity. Qed.

Lemma append_empty (b : string) : "" +:+ b = b.
Proof. reflexivity. Qed.

Lemma split_app_slash (a b : string) :
  slash_free a →
  PyStr.split slash (a +:+ String slash b) = a :: PyStr.split slash b.
Proof.
  induction a as [|c a IH]; intros Ha.
  - rewrite append_empty. reflexivity.
  - destruct Ha as [Hc Ha]. rewrite append_cons. simpl.
    rewrite (proj2 (Ascii.eqb_neq _ _) Hc). by rewrite IH.
Qed.

Lemma split_no_slash (a : string) :
  slash_free a → PyStr.split slash a = [a].
Proof.
  induction a as [|c a IH]; intros Ha; simpl in *; [done|].
  destruct Ha as [Hc Ha]. rewrite (proj2 (Ascii.eqb_neq _ _) Hc).
  by rewrite IH.
Qed.

Lemma split_join (segments : list string) :
  segments ≠ [] → Forall slash_free segments →
  PyStr.split slash (PyStr.join "/" segments) = segments.
Proof.
  induction segments as [|x l IH]; intros Hne Hall; [done|].
  apply Forall_cons in Hall as [Hx Hl].
  destruct l as [|y l]; [by apply split_no_slash|].
  change (PyStr.join "/" (x :: y :: l))
    with (x +:+ String slash (PyStr.join "/" (y :: l))).
  rewrite split_app_slash by done. by rewrite IH.
Qed.

Lemma fold_normalize_Forall (P : string → Prop) (parts normalized : list string) :
  Forall P parts → Forall P normalized →
  Forall P (fold_left normalize_step parts normalized).
Proof.
  revert normalized. induction parts as [|p parts IH]; intros acc Hp Hacc;
    simpl; [done|].
  apply Forall_cons in Hp as [Hp Hparts]. apply IH; [done|].
  unfold normalize_step.
  destruct (bool_decide (p = "") || bool_decide (p = ".")); [done|].
  destruct (bool_decide (p = "..")).
  - destruct acc as [|a acc']; [done|].
    rewrite removelast_firstn_len. by apply Forall_take.
  - apply Forall_app. by repeat constructor.
Qed.

Lemma fold_normalize_real_segments (segments acc : list string) :
  Forall real_segment segments →
  fold_left normalize_step segments acc = acc ++ segments.
Proof.
  revert acc. induction segments as [|x l IH]; intros acc Hall; simpl.
  - by rewrite app_nil_r.
  - apply Forall_cons in Hall as [(H1 & H2 & H3) Hl].
    unfold normalize_step at 2.
    rewrite !bool_decide_eq_false_2 by done. simpl.
    rewrite IH by done. by rewrite <- app_assoc.
Qed.

(** What [resolve_path] returns, whatever it is given. *)
Lemma resolve_path_shape (current_path new_path : string) :
  ∃ segments,
    resolve_path current_path new_path = "/" +:+ PyStr.join "/" segments
    ∧ Forall real_segment segments ∧ Forall slash_free segments.
Proof.
  unfold resolve_path. eexists. split; [reflexivity|]. split.
  - apply fold_normalize_real. constructor.
  - apply fold_normalize_Forall; [apply split_slash_free_parts|constructor].
Qed.

Lemma startswith_slash (s : string) :
  PyStr.startswith "/" (String slash s) = true.
Proof. by destruct s. Qed.

Lemma resolve_resolved (current_path : string) (segments : list string) :
  Forall real_segment segments → Forall slash_free segments →
  resolve_path current_path ("/" +:+ PyStr.join "/" segments)
  = "/" +:+ PyStr.join "/" segments.
Proof.
  intros Hreal Hfree. unfold resolve_path at 1.
  change ("/" +:+ PyStr.join "/" segments)
    with (String slash (PyStr.join "/" segments)) at 1 2.
  rewrite startswith_slash, split_slash_cons, normalize_empty_first.
  f_equal.
  destruct segments as [|x l]; [reflexivity|].
  rewrite split_join by done. unfold normalize.
  by rewrite fold_normalize_real_segments.
Qed.

(** X1. Path resolution is idempotent: a path that [resolve_path]
    returned resolves to itself from every current directory. *)
Theorem resolve_path_idempotent (cwd current_path new_path : string) :
  resolve_path cwd (resolve_path current_path new_path)
  = resolve_path current_path new_path.
Proof.
  destruct (resolve_path_shape current_path new_path)
    as (segments & -> & Hreal & Hfree).
  by apply resolve_resolved.
Qed.

Lemma deploy_file_contents (s : FakeFilesystem) (path : string)
    (content : json) :
  file_contents (state_of (deploy_decoy s path content))
  = <[path := content]> (file_contents s).
Proof.
  unfold deploy_decoy. destruct (make_dirs _ _ _) as [[m d]|[m d]]; [|done].
  destruct (m !! d); [|done]. by destruct (add_entry m d _).
Qed.

(** X2. Only resolved paths are looked up: no argument resolves, from
    any directory, to a path that does not resolve to itself. So the
    content of a decoy deployed at a path that is not in resolved
    form (no leading [/], a doubled or trailing [/], a [.] or [..]
    segment) is stored under a key that no command argument reaches:
    the two lookups in the file contents, [get_file_content] and
    [is_file], answer at every resolved path what they answered before.
    (The directory entries the deployment adds are another matter: the
    listings [ls] and [cd] consult can change.) *)
Theorem unresolved_decoy_path_is_unreachable
    (s : FakeFilesystem) (path : string) (content : json) :
  resolve_path "/" path ≠ path →
  (∀ cwd arg, resolve_path cwd arg ≠ path)
  ∧ (∀ cwd arg,
       get_file_content (state_of (deploy_decoy s path content))
                        (resolve_path cwd arg)
       = get_file_content s (resolve_path cwd arg))
  ∧ (∀ cwd arg,
       is_file (state_of (deploy_decoy s path content))
               (resolve_path cwd arg)
       = is_file s (resolve_path cwd arg)).
Proof.
  intros Hpath.
  assert (∀ cwd arg, resolve_path cwd arg ≠ path) as Hne.
  { intros cwd arg Heq. apply Hpath. rewrite <- Heq.
    destruct (resolve_path_shape cwd arg) as (segments & -> & Hreal & Hfree).
    by apply resolve_resolved. }
  assert (∀ cwd arg,
            file_contents (state_of (deploy_decoy s path content))
              !! resolve_path cwd arg
            = file_contents s !! resolve_path cwd arg) as Hsame.
  { intros cwd arg. rewrite deploy_file_contents.
    rewrite lookup_insert_ne; [done|]. intros Heq. by apply (Hne cwd arg). }
  split; [done|]. split; intros cwd arg.
  - unfold get_file_content. by rewrite Hsame.
  - unfold is_file. by rewrite Hsame.
Qed.

Lemma unresolved_decoy_path_witness :
  (∀ cwd arg, resolve_path cwd arg ≠ "var/www/config.php")
  ∧ (∀ cwd arg,
       get_file_content
         (state_of (deploy_decoy init "var/www/config.php" (JStr "DB_PASS=x")))
         (resolve_path cwd arg)
       = get_file_content init (resolve_path cwd arg))
  ∧ (∀ cwd arg,
       is_file
         (state_of (deploy_decoy init "var/www/config.php" (JStr "DB_PASS=x")))
         (resolve_path cwd arg)
       = is_file init (resolve_path cwd arg)).
Proof.
  apply (unresolved_decoy_path_is_unreachable init "var/www/config.php").
  by vm_compute.
Defined.

(** *** deploy_decoy: what it stores, builds and keeps *)

(** X3. A deployed decoy is read back: after [deploy_decoy(path, content)]
    the path is a file, [get_file_content] returns the content, [cat]
    with any argument that resolves to the path prints it (the content
    not being [None]), and every other file reads as before. *)
Theorem deployed_decoy_is_read_back
    (s : FakeFilesystem) (path : string) (content : json)
    (cwd h u arg : string) (rest : list string) :
  resolve_path cwd arg = path → content ≠ JNull →
  let s' := state_of (deploy_decoy s path content) in
  is_file s' path = true
  ∧ get_file_content s' path = Some content
  ∧ _cmd_cat (mkSim s' cwd h u) (arg :: rest) = content
  ∧ (∀ other, other ≠ path →
       get_file_content s' other = get_file_content s other).
Proof.
  intros Harg Hcontent s'.
  assert (file_contents s' = <[path := content]> (file_contents s)) as Hfc
    by apply deploy_file_contents.
  unfold is_file, _cmd_cat, get_file_content. cbn [sim_fs current_path].
  rewrite Harg, !Hfc, lookup_insert_eq.
  split; [by apply bool_decide_eq_true_2|]. split; [done|]. split.
  - by destruct content.
  - intros other Hother. by rewrite lookup_insert_ne.
Qed.

Lemma deployed_decoy_witness :
  let s' := state_of (deploy_decoy init "/home/secret.txt" (JStr "Top Secret")) in
  is_file s' "/home/secret.txt" = true
  ∧ get_file_content s' "/home/secret.txt" = Some (JStr "Top Secret")
  ∧ _cmd_cat (mkSim s' "/root" "server01" "root") ["/home/secret.txt"]
    = JStr "Top Secret"
  ∧ (∀ other, other ≠ "/home/secret.txt" →
       get_file_content s' other = get_file_content init other).
Proof.
  apply (deployed_decoy_is_read_back init "/home/secret.txt"
           (JStr "Top Secret") "/root" "server01" "root" "/home/secret.txt" []).
  - by vm_compute.
  - done.
Defined.

Lemma add_entry_all_dirs (m m' : gmap string Node) (d name : string) :
  all_dirs m → add_entry m d name = Some m' → all_dirs m'.
Proof.
  intros Hm. unfold add_entry. destruct (m !! d) as [node|] eqn:Hd; [|done].
  destruct (PyStr.mem name (contents node)); intros [= <-]; [done|].
  intros k nk Hk. destruct (decide (k = d)) as [->|Hne].
  - rewrite lookup_insert_eq in Hk. injection Hk as <-. simpl. by eapply Hm.
  - rewrite lookup_insert_ne in Hk by done. by eapply Hm.
Qed.

Lemma insert_dir_all_dirs (m : gmap string Node) (d : string) :
  all_dirs m → all_dirs (<[d := dir []]> m).
Proof.
  intros Hm k nk Hk. destruct (decide (k = d)) as [->|Hne].
  - rewrite lookup_insert_eq in Hk. by injection Hk as <-.
  - rewrite lookup_insert_ne in Hk by done. by eapply Hm.
Qed.

Lemma make_dirs_all_dirs (parts : list string) (m : gmap string Node)
    (cur : string) :
  all_dirs m → all_dirs (fst (state_of (make_dirs m cur parts))).
Proof.
  revert m cur. induction parts as [|p parts IH]; intros m cur Hm; simpl.
  - done.
  - destruct (bool_decide (p = "")); [by apply IH|].
    destruct (m !! next_dir_of cur p); [by apply IH|].
    destruct (add_entry _ cur p) as [m2|] eqn:Hadd.
    + apply IH. eapply add_entry_all_dirs; [|done]. by apply insert_dir_all_dirs.
    + simpl. by apply insert_dir_all_dirs.
Qed.

Lemma deploy_decoy_all_dirs (s : FakeFilesystem) (path : string)
    (content : json) :
  all_dirs (fs s) → all_dirs (fs (state_of (deploy_decoy s path content))).
Proof.
  intros Hs. unfold deploy_decoy.
  pose proof (make_dirs_all_dirs (removelast (path_parts path)) (fs s) "/" Hs)
    as Hm.
  destruct (make_dirs _ _ _) as [[m d]|[m d]]; simpl in *; [|done].
  destruct (m !! d); [|done].
  destruct (add_entry m d _) as [m'|] eqn:Hadd; simpl; [|done].
  by eapply add_entry_all_dirs.
Qed.

Lemma init_all_dirs : all_dirs (fs init).
Proof.
  intros d node Hd. apply (elem_of_list_to_map_2 (M := gmap string)) in Hd.
  unfold init_fs in Hd. simpl in Hd.
  repeat (apply elem_of_cons in Hd as [[= -> ->]|Hd]; [done|]).
  by apply elem_of_nil in Hd.
Qed.

Lemma reachable_all_dirs (s : FakeFilesystem) : reachable s → all_dirs (fs s).
Proof. induction 1; [apply init_all_dirs | by apply deploy_decoy_all_dirs]. Qed.

Lemma is_dir_lookup (s : FakeFilesystem) (d : string) :
  all_dirs (fs s) → is_dir s d = true ↔ is_Some (fs s !! d).
Proof.
  intros Hs. unfold is_dir. destruct (fs s !! d) as [node|] eqn:Hd.
  - rewrite (Hs d node Hd). split; [eauto | done].
  - split; [done | by intros [? ?]].
Qed.

Lemma list_dir_lookup (s : FakeFilesystem) (d : string) (node : Node) :
  all_dirs (fs s) → fs s !! d = Some node →
  list_dir s d = Some (contents node).
Proof.
  intros Hs Hd. unfold list_dir. rewrite Hd.
  by rewrite (Hs d node Hd).
Qed.

Lemma deploy_decoy_lists (s : FakeFilesystem) (path : string)
    (content : json) :
  reachable s →
  let s' := state_of (deploy_decoy s path content) in
  (∃ listing, list_dir s' (parent_dir path) = Some listing
              ∧ filename_of path ∈ listing)
  ∧ is_dir s' (parent_dir path) = true.
Proof.
  intros Hreach s'.
  assert (all_dirs (fs s')) as Hdirs
    by (apply reachable_all_dirs; by constructor).
  destruct (deploy_decoy_spec s path content (reachable_wf s Hreach))
    as (m' & Hrun & _ & _ & (pnode & Hparent & Hfile) & _).
  assert (fs s' = m') as Hfs by (subst s'; by rewrite Hrun).
  split.
  - exists (contents pnode). split; [|done].
    apply list_dir_lookup; [done | by rewrite Hfs].
  - apply is_dir_lookup; [done|]. rewrite Hfs, Hparent. eauto.
Qed.

(** X4. A deployed decoy is listed: on every filesystem the honeypot can
    hold, after [deploy_decoy] the directory the loop ends on is a
    directory whose listing has the file name, and every directory on
    the way to it is a directory. *)
Theorem deployed_decoy_is_listed
    (s : FakeFilesystem) (path : string) (content : json) :
  reachable s →
  let s' := state_of (deploy_decoy s path content) in
  (∃ listing, list_dir s' (parent_dir path) = Some listing
              ∧ filename_of path ∈ listing)
  ∧ is_dir s' (parent_dir path) = true
  ∧ (∀ d part next, (d, part, next) ∈ ancestors path → is_dir s' next = true).
Proof.
  intros Hreach s'.
  assert (all_dirs (fs s')) as Hdirs
    by (apply reachable_all_dirs; by constructor).
  destruct (deploy_decoy_spec s path content (reachable_wf s Hreach))
    as (m' & Hrun & _ & _ & (pnode & Hparent & Hfile) & Hchain).
  assert (fs s' = m') as Hfs by (subst s'; by rewrite Hrun).
  split; [|split].
  - exists (contents pnode). split; [|done].
    apply list_dir_lookup; [done | by rewrite Hfs].
  - apply is_dir_lookup; [done|]. rewrite Hfs, Hparent. eauto.
  - intros d part next Hin. apply is_dir_lookup; [done|]. rewrite Hfs.
    by apply (Hchain d part next).
Qed.

Lemma deployed_decoy_is_listed_witness :
  let s' := state_of (deploy_decoy init "/var/www/config.php" (JStr "x")) in
  (∃ listing, list_dir s' (parent_dir "/var/www/config.php") = Some listing
              ∧ filename_of "/var/www/config.php" ∈ listing)
  ∧ is_dir s' (parent_dir "/var/www/config.php") = true
  ∧ (∀ d part next, (d, part, next) ∈ ancestors "/var/www/config.php" →
       is_dir s' next = true).
Proof.
  apply (deployed_decoy_is_listed init "/var/www/config.php" (JStr "x")).
  constructor.
Defined.

(** *** Deploying at a resolved path *)

Lemma append_assoc_s (a b c : string) : (a +:+ b) +:+ c = a +:+ (b +:+ c).
Proof.
  induction a as [|x a IH]; [done|]. rewrite !append_cons. by rewrite IH.
Qed.

Lemma rstrip_snoc (p : ascii → bool) (s : string) (c : ascii) :
  p c = false →
  PyStr.rstrip p (s +:+ String c "") = s +:+ String c "".
Proof.
  intros Hc. induction s as [|a s IH].
  - rewrite append_empty. simpl. by rewrite Hc.
  - rewrite append_cons. simpl. rewrite IH.
    destruct s; [by rewrite append_empty | by rewrite append_cons].
Qed.

Lemma string_snoc (s : string) :
  s ≠ "" → slash_free s →
  ∃ s' c, s = s' +:+ String c "" ∧ c ≠ slash.
Proof.
  induction s as [|a s IH]; intros Hne Hfree; [done|].
  destruct Hfree as [Ha Hfree]. destruct s as [|b s].
  - exists "", a. by rewrite append_empty.
  - destruct IH as (s' & c & Heq & Hc); [done|done|].
    exists (String a s'), c. by rewrite append_cons, <- Heq.
Qed.

Lemma join_snoc (segments : list string) (name : string) :
  ∃ before, PyStr.join "/" (segments ++ [name]) = before +:+ name.
Proof.
  induction segments as [|x l IH]; simpl.
  - exists "". by rewrite append_empty.
  - destruct IH as (before & Heq).
    destruct (l ++ [name]) as [|y l'] eqn:Hl; [by destruct l|].
    exists (x +:+ "/" +:+ before).
    change (PyStr.join "/" (x :: y :: l'))
      with (x +:+ "/" +:+ PyStr.join "/" (y :: l')).
    by rewrite Heq, !append_assoc_s.
Qed.

Lemma join_first (x : string) (l : list string) :
  ∃ rest, PyStr.join "/" (x :: l) = x +:+ rest.
Proof.
  destruct l as [|y l].
  - exists "". simpl. induction x as [|c x IH]; [done|].
    by rewrite append_cons, <- IH.
  - by exists ("/" +:+ PyStr.join "/" (y :: l)).
Qed.

Lemma path_parts_resolved (segments : list string) (name : string) :
  Forall real_segment (segments ++ [name]) →
  Forall slash_free (segments ++ [name]) →
  path_parts ("/" +:+ PyStr.join "/" (segments ++ [name]))
  = segments ++ [name].
Proof.
  intros Hreal Hfree. unfold path_parts, PyStr.strip.
  assert (PyStr.lstrip (PyStr.is_char slash)
            ("/" +:+ PyStr.join "/" (segments ++ [name]))
          = PyStr.join "/" (segments ++ [name])) as ->.
  { change ("/" +:+ PyStr.join "/" (segments ++ [name]))
      with (String slash (PyStr.join "/" (segments ++ [name]))).
    cbn [PyStr.lstrip]. unfold PyStr.is_char at 1. rewrite Ascii.eqb_refl.
    destruct (segments ++ [name]) as [|x l] eqn:Hl; [done|].
    apply Forall_cons in Hreal as [(Hx & _) _].
    apply Forall_cons in Hfree as [Hxf _].
    destruct (join_first x l) as (rest & ->).
    destruct x as [|c x]; [done|]. destruct Hxf as [Hc _].
    rewrite append_cons. cbn [PyStr.lstrip]. unfold PyStr.is_char.
    by rewrite (proj2 (Ascii.eqb_neq _ _) Hc). }
  assert (PyStr.rstrip (PyStr.is_char slash)
            (PyStr.join "/" (segments ++ [name]))
          = PyStr.join "/" (segments ++ [name])) as ->.
  { destruct (join_snoc segments name) as (before & ->).
    apply Forall_app in Hreal as [_ Hn]. apply Forall_app in Hfree as [_ Hnf].
    apply Forall_cons in Hn as [(Hne & _) _].
    apply Forall_cons in Hnf as [Hnfree _].
    destruct (string_snoc name Hne Hnfree) as (n' & c & -> & Hc).
    rewrite <- append_assoc_s. apply rstrip_snoc.
    unfold PyStr.is_char. by apply Ascii.eqb_neq. }
  apply split_join; [by destruct segments | done].
Qed.

Lemma next_dir_of_not_root (d part : string) :
  part ≠ "" → next_dir_of d part ≠ "/".
Proof.
  intros Hp Heq. pose proof (next_dir_of_longer d part Hp) as Hlt.
  rewrite Heq in Hlt. unfold next_dir_of in Heq.
  case_bool_decide as Hd.
  - subst d. simpl in Hlt. lia.
  - destruct d as [|c d]; simpl in Hlt; [|lia].
    destruct part; [done|].
    rewrite append_empty, append_cons, append_empty in Heq. discriminate.
Qed.

Lemma walk_from (segments : list string) (d : string) :
  d ≠ "/" → Forall real_segment segments →
  walk d segments
  = match segments with
    | [] => d
    | _ => d +:+ "/" +:+ PyStr.join "/" segments
    end.
Proof.
  revert d. induction segments as [|x l IH]; intros d Hd Hreal; [done|].
  apply Forall_cons in Hreal as [(Hx & _) Hl]. simpl.
  rewrite bool_decide_eq_false_2 by done.
  rewrite IH; [|by apply next_dir_of_not_root|done].
  unfold next_dir_of. rewrite bool_decide_eq_false_2 by done.
  destruct l as [|y l]; [done|].
  change (PyStr.join "/" (x :: y :: l))
    with (x +:+ "/" +:+ PyStr.join "/" (y :: l)).
  by rewrite !append_assoc_s.
Qed.

Lemma walk_from_root (segments : list string) :
  Forall real_segment segments →
  walk "/" segments = "/" +:+ PyStr.join "/" segments.
Proof.
  intros Hreal. destruct segments as [|x l]; [done|].
  apply Forall_cons in Hreal as [(Hx & _) Hl]. simpl.
  rewrite bool_decide_eq_false_2 by done.
  rewrite walk_from; [|by apply next_dir_of_not_root|done].
  destruct l as [|y l]; [done|].
  change (PyStr.join "/" (x :: y :: l))
    with (x +:+ "/" +:+ PyStr.join "/" (y :: l)).
  change (next_dir_of "/" x) with ("/" +:+ x).
  by rewrite !append_assoc_s.
Qed.

(** X5. A decoy deployed at a resolved path [/d1/.../dn/name] (none of
    the segments empty, [.] or [..]) shows in the listing of
    [/d1/.../dn], which is a directory afterwards, and is read back at
    its path: [ls] of the directory and [cat] of the file both find it. *)
Theorem decoy_at_resolved_path_is_listed_and_read
    (s : FakeFilesystem) (segments : list string) (name : string)
    (content : json) :
  reachable s →
  Forall real_segment (segments ++ [name]) →
  Forall slash_free (segments ++ [name]) →
  let directory := "/" +:+ PyStr.join "/" segments in
  let path := "/" +:+ PyStr.join "/" (segments ++ [name]) in
  let s' := state_of (deploy_decoy s path content) in
  is_dir s' directory = true
  ∧ (∃ listing, list_dir s' directory = Some listing ∧ name ∈ listing)
  ∧ get_file_content s' path = Some content.
Proof.
  intros Hreach Hreal Hfree directory path s'.
  destruct (deploy_decoy_lists s path content Hreach) as (Hlist & Hdir).
  fold s' in Hlist, Hdir.
  assert (parent_dir path = directory) as Hparent.
  { unfold parent_dir, path. rewrite path_parts_resolved by done.
    rewrite removelast_last. apply walk_from_root.
    by apply Forall_app in Hreal as [? _]. }
  assert (filename_of path = name) as Hname.
  { unfold filename_of, path. rewrite path_parts_resolved by done.
    apply last_last. }
  rewrite Hparent in Hlist, Hdir. rewrite Hname in Hlist.
  split; [done|]. split; [done|].
  unfold get_file_content. subst s'.
  by rewrite deploy_file_contents, lookup_insert_eq.
Qed.

Lemma decoy_at_resolved_path_witness :
  let directory := "/" +:+ PyStr.join "/" ["var"; "www"] in
  let path := "/" +:+ PyStr.join "/" (["var"; "www"] ++ ["config.php"]) in
  let s' := state_of (deploy_decoy init path (JStr "DB_PASS=x")) in
  is_dir s' directory = true
  ∧ (∃ listing, list_dir s' directory = Some listing
                ∧ "config.php" ∈ listing)
  ∧ get_file_content s' path = Some (JStr "DB_PASS=x").
Proof.
  apply (decoy_at_resolved_path_is_listed_and_read init ["var"; "www"]
           "config.php" (JStr "DB_PASS=x")).
  - constructor.
  - repeat constructor; done.
  - repeat constructor; done.
Defined.

(** X6. [deploy_decoy] removes nothing: on every filesystem the honeypot
    can hold, each directory is a directory afterwards and its listing
    keeps every entry it had. *)
Theorem deploy_decoy_keeps_directories
    (s : FakeFilesystem) (path : string) (content : json)
    (d : string) (listing : list string) :
  reachable s → list_dir s d = Some listing →
  let s' := state_of (deploy_decoy s path content) in
  is_dir s' d = true
  ∧ ∃ listing', list_dir s' d = Some listing' ∧ listing ⊆ listing'.
Proof.
  intros Hreach Hlist s'.
  assert (all_dirs (fs s')) as Hdirs
    by (apply reachable_all_dirs; by constructor).
  destruct (deploy_decoy_spec s path content (reachable_wf s Hreach))
    as (m' & Hrun & _ & Hext & _).
  assert (fs s' = m') as Hfs by (subst s'; by rewrite Hrun).
  unfold list_dir in Hlist. destruct (fs s !! d) as [node|] eqn:Hd; [|done].
  destruct (bool_decide (type node = "dir")); [|done]. injection Hlist as <-.
  destruct (Hext d node Hd) as (node' & Hd' & Hsub). rewrite <- Hfs in Hd'.
  split.
  - apply is_dir_lookup; [done|]. rewrite Hd'. eauto.
  - exists (contents node'). split; [by apply list_dir_lookup | done].
Qed.

Lemma deploy_decoy_keeps_directories_witness :
  let s' := state_of (deploy_decoy init "/etc/cron.d/backup" (JStr "x")) in
  is_dir s' "/etc" = true
  ∧ ∃ listing', list_dir s' "/etc" = Some listing'
                ∧ ["passwd"; "shadow"; "hostname"; "hosts"] ⊆ listing'.
Proof.
  apply (deploy_decoy_keeps_directories init "/etc/cron.d/backup" (JStr "x")
           "/etc" ["passwd"; "shadow"; "hostname"; "hosts"]).
  - constructor.
  - by vm_compute.
Defined.

(** *** The command simulator *)

Lemma deploy_decoy_keeps_is_dir (s : FakeFilesystem) (path : string)
    (content : json) (d : string) :
  reachable s → is_dir s d = true →
  is_dir (state_of (deploy_decoy s path content)) d = true.
Proof.
  intros Hreach Hd.
  assert (all_dirs (fs (state_of (deploy_decoy s path content)))) as Hdirs
    by (apply reachable_all_dirs; by constructor).
  destruct (deploy_decoy_spec s path content (reachable_wf s Hreach))
    as (m' & Hrun & _ & Hext & _).
  apply is_dir_lookup; [done|]. rewrite Hrun. simpl.
  eapply extends_is_Some; [done|].
  by apply (is_dir_lookup s d (reachable_all_dirs s Hreach)).
Qed.

Lemma reachable_home (s : FakeFilesystem) :
  reachable s → is_dir s "/root" = true.
Proof.
  induction 1; [by vm_compute | by apply deploy_decoy_keeps_is_dir].
Qed.

Lemma cmd_cd_ok (sim : CommandSimulator) (args : list string) :
  simulator_ok sim → simulator_ok (fst (_cmd_cd sim args)).
Proof.
  intros [Hreach Hdir]. unfold _cmd_cd. destruct args as [|a args].
  - split; cbn [fst sim_fs current_path]; [done | by apply reachable_home].
  - destruct (is_dir (sim_fs sim) (resolve_path (current_path sim) a)) eqn:Ht;
      split; cbn [fst sim_fs current_path]; done.
Qed.

Lemma execute_command_ok (sim : CommandSimulator) (cmd_line : string) :
  simulator_ok sim → simulator_ok (fst (execute_command sim cmd_line)).
Proof.
  intros Hok. unfold execute_command.
  destruct (PyStr.split_ws _) as [|cmd args]; [done|].
  repeat (destruct (PyStr.eqb cmd _); [done || by apply cmd_cd_ok|]).
  done.
Qed.

Lemma non_flags_idempotent (args : list string) :
  non_flags (non_flags args) = non_flags args.
Proof.
  unfold non_flags. induction args as [|a args IH]; simpl; [done|].
  destruct (negb (PyStr.startswith "-" a)) eqn:Ha; simpl; [|done].
  by rewrite Ha, IH.
Qed.

(** X7. [ls] ignores every argument that starts with [-]: its answer is
    the one it gives with those arguments removed, so [ls -la] answers
    as [ls] and [ls -l /etc] as [ls /etc]. *)
Theorem ls_ignores_flags (sim : CommandSimulator) (args : list string) :
  _cmd_ls sim args = _cmd_ls sim (non_flags args).
Proof. unfold _cmd_ls. by rewrite non_flags_idempotent. Qed.

(** X8. A command changes nothing of the simulator but the current
    directory, and only [cd] changes that: the filesystem, the host name
    and the user are the same after every command line, and unless the
    first word is [cd] the simulator is the same. *)
Theorem only_cd_changes_the_simulator
    (sim : CommandSimulator) (cmd_line : string) :
  let sim' := fst (execute_command sim cmd_line) in
  sim_fs sim' = sim_fs sim
  ∧ hostname sim' = hostname sim
  ∧ user sim' = user sim
  ∧ (head (PyStr.split_ws (PyStr.strip PyStr.is_space cmd_line)) ≠ Some "cd" →
     sim' = sim).
Proof.
  unfold execute_command.
  destruct (PyStr.split_ws _) as [|cmd args]; [done|]. simpl.
  destruct (PyStr.eqb cmd "ls"); [done|].
  destruct (PyStr.eqb cmd "cd") eqn:Hcd.
  - apply bool_decide_eq_true in Hcd as ->. unfold _cmd_cd.
    destruct args as [|a args]; [done|].
    by destruct (is_dir (sim_fs sim) _).
  - repeat (destruct (PyStr.eqb cmd _); [done|]). done.
Qed.

Lemma lstrip_all_space (s : string) :
  all_space s → PyStr.lstrip PyStr.is_space s = "".
Proof.
  induction s as [|c s IH]; [done|]. intros [Hc Hs]. simpl.
  rewrite Hc. by apply IH.
Qed.

Lemma strip_all_space (s : string) :
  all_space s → PyStr.strip PyStr.is_space s = "".
Proof. intros Hs. unfold PyStr.strip. by rewrite lstrip_all_space. Qed.

(** X9. A command line that is empty or all white space does nothing:
    the simulator answers the empty text and is unchanged. *)
Theorem blank_command_line_does_nothing
    (sim : CommandSimulator) (cmd_line : string) :
  all_space cmd_line → execute_command sim cmd_line = (sim, JStr "").
Proof.
  intros Hs. unfold execute_command. by rewrite strip_all_space.
Qed.

Lemma blank_command_line_witness :
  execute_command (new_simulator init) "   " = (new_simulator init, JStr "").
Proof.
  apply (blank_command_line_does_nothing (new_simulator init) "   ").
  by vm_compute.
Defined.

(** X10. The current directory is always there: on a simulator whose
    current directory is a directory of a filesystem the honeypot can
    hold, it still is after any command line, and [ls] with no path
    answers with the listing of it, never with "No such file or
    directory". *)
Theorem current_directory_always_exists
    (sim : CommandSimulator) (cmd_line : string) (args : list string) :
  simulator_ok sim →
  simulator_ok (fst (execute_command sim cmd_line))
  ∧ (non_flags args = [] →
     ∃ listing,
       list_dir (sim_fs sim) (current_path sim) = Some listing
       ∧ _cmd_ls sim args = PyStr.join "  " listing).
Proof.
  intros Hok. split; [by apply execute_command_ok|].
  intros Hargs. destruct Hok as [_ Hdir].
  apply list_dir_is_dir in Hdir as [listing Hl].
  exists listing. split; [done|]. unfold _cmd_ls. by rewrite Hargs, Hl.
Qed.

Lemma current_directory_witness :
  simulator_ok (fst (execute_command (new_simulator init) "cd /nonexistent"))
  ∧ (non_flags ["-la"] = [] →
     ∃ listing,
       list_dir (sim_fs (new_simulator init))
                (current_path (new_simulator init)) = Some listing
       ∧ _cmd_ls (new_simulator init) ["-la"] = PyStr.join "  " listing).
Proof.
  apply (current_directory_always_exists (new_simulator init)
           "cd /nonexistent" ["-la"]).
  split; [constructor | by vm_compute].
Defined.

End DeceptionExtra.

(** * Further properties of blocking and authentication *)

Module HoneypotExtra.
Import Json Deception Honeypot Scenario Shapes Pipeline.
Import DeceptionProps HoneypotProps DeceptionExtra.

(** X11. [is_blocked] settles: once it has answered false it answers
    false at every instant, changing nothing more, until another attempt
    is counted; and when it answers true it answers true, changing
    nothing, at every earlier instant too. *)
Theorem is_blocked_settles (st : State) (ip : string) (now : Z) :
  (fst (is_blocked st ip now) = false →
   ∀ later, is_blocked (snd (is_blocked st ip now)) ip later
            = (false, snd (is_blocked st ip now)))
  ∧ (fst (is_blocked st ip now) = true →
     ∀ earlier, earlier ≤ now → is_blocked st ip earlier = (true, st)).
Proof.
  unfold is_blocked. case_bool_decide as Hg; [by split|].
  destruct (BLOCKED_IPS st !! ip) as [e|] eqn:He.
  - destruct (MAX_ATTEMPTS <=? attempts e) eqn:Ha.
    + destruct (now <? until e) eqn:Hu; simpl.
      * split; [done|]. intros _ earlier Hle.
        apply Z.ltb_lt in Hu. by rewrite (proj2 (Z.ltb_lt earlier _)) by lia.
      * split; [|done]. intros _ later.
        rewrite bool_decide_eq_false_2 by done. by rewrite lookup_delete_eq.
    + simpl. split; [|done]. intros _ later.
      rewrite bool_decide_eq_false_2 by done. by rewrite He, Ha.
  - simpl. split; [|done]. intros _ later.
    rewrite bool_decide_eq_false_2 by done. by rewrite He.
Qed.

Lemma is_blocked_frame (st : State) (ip : string) (now : Z) :
  GLOBAL_BLOCKED_IPS (snd (is_blocked st ip now)) = GLOBAL_BLOCKED_IPS st
  ∧ LOG_QUEUE (snd (is_blocked st ip now)) = LOG_QUEUE st
  ∧ (∀ other, other ≠ ip →
       BLOCKED_IPS (snd (is_blocked st ip now)) !! other
       = BLOCKED_IPS st !! other).
Proof.
  unfold is_blocked. case_bool_decide; [done|].
  destruct (BLOCKED_IPS st !! ip) as [e|]; [|done].
  destruct (MAX_ATTEMPTS <=? attempts e); [|done].
  destruct (now <? until e); [done|]. simpl. repeat split.
  intros other Hne. by rewrite lookup_delete_ne.
Qed.

Lemma block_ip_frame (st : State) (ip : string) (now : Z) :
  GLOBAL_BLOCKED_IPS (block_ip st ip now) = GLOBAL_BLOCKED_IPS st
  ∧ (∀ other, other ≠ ip →
       BLOCKED_IPS (block_ip st ip now) !! other = BLOCKED_IPS st !! other).
Proof.
  unfold block_ip. destruct (MAX_ATTEMPTS <=? _); simpl; split; try done;
    intros other Hne; by rewrite lookup_insert_ne.
Qed.

Lemma is_blocked_answer_depends (st st' : State) (ip : string) (now : Z) :
  GLOBAL_BLOCKED_IPS st' = GLOBAL_BLOCKED_IPS st →
  BLOCKED_IPS st' !! ip = BLOCKED_IPS st !! ip →
  fst (is_blocked st' ip now) = fst (is_blocked st ip now).
Proof.
  intros Hg He. unfold is_blocked. rewrite Hg, He.
  case_bool_decide; [done|]. destruct (BLOCKED_IPS st !! ip) as [e|]; [|done].
  destruct (MAX_ATTEMPTS <=? attempts e); [|done].
  by destruct (now <? until e).
Qed.

(** X12. A credential submission touches only its own address: the
    entry of every other address and the global set are as before, so
    [is_blocked] answers for every other address as it did. *)
Theorem submission_leaves_other_addresses_alone (ALLOW_ALL_CREDS : bool)
    (st : State) (ip other username password : string) (now : Z) :
  other ≠ ip →
  let st' :=
    snd (check_auth_password ALLOW_ALL_CREDS st ip username password now) in
  BLOCKED_IPS st' !! other = BLOCKED_IPS st !! other
  ∧ GLOBAL_BLOCKED_IPS st' = GLOBAL_BLOCKED_IPS st
  ∧ (∀ t, fst (is_blocked st' other t) = fst (is_blocked st other t)).
Proof.
  intros Hne st'.
  assert (BLOCKED_IPS st' !! other = BLOCKED_IPS st !! other
          ∧ GLOBAL_BLOCKED_IPS st' = GLOBAL_BLOCKED_IPS st) as [He Hg].
  { subst st'. unfold check_auth_password.
    destruct (is_blocked_frame st ip now) as (Hg1 & _ & He1).
    destruct (is_blocked st ip now) as [blocked st1]. simpl in *.
    destruct blocked; simpl; [by rewrite He1|].
    destruct (ALLOW_ALL_CREDS || is_bait_cred username password); simpl;
      [by rewrite He1|].
    destruct (block_ip_frame
                (log_event st1 (login_event ip username password)) ip now)
      as (Hg2 & He2).
    rewrite He2 by done. rewrite Hg2. simpl. by rewrite He1. }
  split; [done|]. split; [done|].
  intros t. by apply is_blocked_answer_depends.
Qed.

Lemma submission_leaves_others_witness :
  let st' :=
    snd (check_auth_password false after_five attacker "x" "y" 100) in
  BLOCKED_IPS st' !! "10.0.0.5" = BLOCKED_IPS after_five !! "10.0.0.5"
  ∧ GLOBAL_BLOCKED_IPS st' = GLOBAL_BLOCKED_IPS after_five
  ∧ (∀ t, fst (is_blocked st' "10.0.0.5" t)
          = fst (is_blocked after_five "10.0.0.5" t)).
Proof.
  apply (submission_leaves_other_addresses_alone false after_five attacker
           "10.0.0.5" "x" "y" 100).
  done.
Defined.

Lemma accepted_login (ALLOW_ALL_CREDS : bool) (st : State)
    (ip username password : string) (now : Z) :
  ip ∉ GLOBAL_BLOCKED_IPS st → counter st ip < MAX_ATTEMPTS →
  ALLOW_ALL_CREDS || is_bait_cred username password = true →
  check_auth_password ALLOW_ALL_CREDS st ip username password now
  = (AUTH_SUCCESSFUL, log_event st (login_event ip username password)).
Proof.
  intros Hg Hc Hok. unfold check_auth_password.
  rewrite is_blocked_below_threshold by done. by rewrite Hok.
Qed.

(** X13. A successful login does not reset the count of failures: for an
    address with four failed attempts, a login with bait credentials leaves
    the entry as it is and queues one LOGIN_ATTEMPT entry with the
    credentials, and the next failed attempt is the fifth and blocks. *)
Theorem successful_login_does_not_reset_the_counter
    (st : State) (ip : string) (seen : Z)
    (username password u5 p5 : string) (now t5 : Z) :
  ip ∉ GLOBAL_BLOCKED_IPS st →
  BLOCKED_IPS st !! ip = Some (mkEntry 4 seen) →
  is_bait_cred username password = true →
  is_bait_cred u5 p5 = false →
  let accepted := check_auth_password false st ip username password now in
  let fifth := check_auth_password false (snd accepted) ip u5 p5 t5 in
  fst accepted = AUTH_SUCCESSFUL
  ∧ BLOCKED_IPS (snd accepted) = BLOCKED_IPS st
  ∧ LOG_QUEUE (snd accepted)
    = LOG_QUEUE st ++ [login_event ip username password]
  ∧ fst fifth = AUTH_FAILED
  ∧ BLOCKED_IPS (snd fifth) !! ip
    = Some (mkEntry MAX_ATTEMPTS (t5 + BLOCK_DURATION))
  ∧ (∀ t, t < t5 + BLOCK_DURATION → fst (is_blocked (snd fifth) ip t) = true).
Proof.
  intros Hg He Hok Hb5 accepted fifth.
  assert (counter st ip = 4) as Hc by (unfold counter; by rewrite He).
  subst fifth accepted.
  rewrite accepted_login by (done || (rewrite Hc; unfold MAX_ATTEMPTS; lia)).
  cbn [fst snd]. split; [done|]. split; [done|]. split; [done|].
  rewrite failed_attempt;
    [|done|rewrite counter_log_event, Hc; unfold MAX_ATTEMPTS; lia|done].
  rewrite block_ip_threshold
    by (rewrite !counter_log_event, Hc; unfold MAX_ATTEMPTS; lia).
  rewrite !counter_log_event, Hc. cbn [fst snd BLOCKED_IPS log_event].
  split; [done|]. split; [apply lookup_insert_eq|].
  intros t Ht. erewrite is_blocked_local;
    [done|apply lookup_insert_eq|done|done].
Qed.

Lemma successful_login_witness :
  let st4 := snd (submit_all false st0 attacker four_failures) in
  let accepted := check_auth_password false st4 attacker "root" "1234" 5 in
  let fifth := check_auth_password false (snd accepted) attacker "a" "b" 6 in
  fst accepted = AUTH_SUCCESSFUL
  ∧ BLOCKED_IPS (snd accepted) = BLOCKED_IPS st4
  ∧ LOG_QUEUE (snd accepted)
    = LOG_QUEUE st4 ++ [login_event attacker "root" "1234"]
  ∧ fst fifth = AUTH_FAILED
  ∧ BLOCKED_IPS (snd fifth) !! attacker
    = Some (mkEntry MAX_ATTEMPTS (6 + BLOCK_DURATION))
  ∧ (∀ t, t < 6 + BLOCK_DURATION →
       fst (is_blocked (snd fifth) attacker t) = true).
Proof.
  apply (successful_login_does_not_reset_the_counter
           (snd (submit_all false st0 attacker four_failures)) attacker 0
           "root" "1234" "a" "b" 5 6).
  - by vm_compute.
  - by vm_compute.
  - reflexivity.
  - reflexivity.
Defined.

(** In permissive mode an address below the threshold and not on the
    global list logs in with anything, and only the log queue changes. *)
Lemma permissive_mode_below_threshold (st : State) (ip : string)
    (subs : list (string * string * Z)) :
  ip ∉ GLOBAL_BLOCKED_IPS st → counter st ip < MAX_ATTEMPTS →
  fst (submit_all true st ip subs) = replicate (length subs) AUTH_SUCCESSFUL
  ∧ BLOCKED_IPS (snd (submit_all true st ip subs)) = BLOCKED_IPS st
  ∧ GLOBAL_BLOCKED_IPS (snd (submit_all true st ip subs))
    = GLOBAL_BLOCKED_IPS st
  ∧ LOG_QUEUE (snd (submit_all true st ip subs))
    = LOG_QUEUE st ++ map (login_event_of ip) subs.
Proof.
  revert st. induction subs as [|[[u p] now] subs IH]; intros st Hg Hc.
  - simpl. by rewrite app_nil_r.
  - cbn [submit_all length replicate]. rewrite accepted_login by done.
    cbn [fst snd].
    destruct (IH (log_event st (login_event ip u p))) as (Hr & Hb & Hgl & Hl);
      [done|done|].
    rewrite Hr, Hb, Hgl, Hl. simpl. by rewrite <- app_assoc.
Qed.

(** What [is_blocked] leaves when it answers no: the address is not on
    the global list, its counter is below the threshold (an expired
    entry is deleted), and the block map is the old one or the old one
    without the expired entry of the address. *)
Lemma is_blocked_false (st : State) (ip : string) (now : Z) :
  fst (is_blocked st ip now) = false →
  (ip ∉ GLOBAL_BLOCKED_IPS st)
  ∧ counter (snd (is_blocked st ip now)) ip < MAX_ATTEMPTS
  ∧ (BLOCKED_IPS (snd (is_blocked st ip now)) = BLOCKED_IPS st
     ∨ (BLOCKED_IPS (snd (is_blocked st ip now)) = delete ip (BLOCKED_IPS st)
        ∧ ∃ e, BLOCKED_IPS st !! ip = Some e
               ∧ MAX_ATTEMPTS ≤ attempts e ∧ until e ≤ now)).
Proof.
  unfold is_blocked, counter. case_bool_decide as Hg; [done|].
  destruct (BLOCKED_IPS st !! ip) as [e|] eqn:He.
  - destruct (MAX_ATTEMPTS <=? attempts e) eqn:Ha.
    + destruct (now <? until e) eqn:Hu; [done|]. intros _.
      cbn [fst snd BLOCKED_IPS]. rewrite lookup_delete_eq.
      split; [done|]. split; [by unfold MAX_ATTEMPTS|].
      right. split; [done|]. exists e.
      apply Z.leb_le in Ha. apply Z.ltb_ge in Hu. done.
    + intros _. cbn [fst snd]. rewrite He. apply Z.leb_gt in Ha.
      split; [done|]. split; [done|]. by left.
  - intros _. cbn [fst snd]. rewrite He.
    split; [done|]. split; [by unfold MAX_ATTEMPTS|]. by left.
Qed.

(** X14. With [ALLOW_ALL_CREDS] on, authentication never blocks: when an
    address is not blocked at its first submission (it is not on the
    global list, and its entry, if any, is below the threshold or has
    expired), every submission succeeds, whatever the credentials and
    the instants; the global set stays as it is; the block map is
    touched only by the first [is_blocked], which deletes the entry of
    the address when it has expired and changes nothing otherwise; each
    submission queues its LOGIN_ATTEMPT entry; and the address is
    blocked at no instant afterwards. *)
Theorem permissive_mode_never_blocks (st : State) (ip : string)
    (username password : string) (now : Z)
    (rest : list (string * string * Z)) :
  fst (is_blocked st ip now) = false →
  let subs := (username, password, now) :: rest in
  let final := snd (submit_all true st ip subs) in
  fst (submit_all true st ip subs) = replicate (length subs) AUTH_SUCCESSFUL
  ∧ BLOCKED_IPS final = BLOCKED_IPS (snd (is_blocked st ip now))
  ∧ (BLOCKED_IPS final = BLOCKED_IPS st
     ∨ (BLOCKED_IPS final = delete ip (BLOCKED_IPS st)
        ∧ ∃ e, BLOCKED_IPS st !! ip = Some e
               ∧ MAX_ATTEMPTS ≤ attempts e ∧ until e ≤ now))
  ∧ GLOBAL_BLOCKED_IPS final = GLOBAL_BLOCKED_IPS st
  ∧ LOG_QUEUE final = LOG_QUEUE st ++ map (login_event_of ip) subs
  ∧ (∀ t, fst (is_blocked final ip t) = false).
Proof.
  intros Hfree subs final.
  destruct (is_blocked_false st ip now Hfree) as (Hg & Hc & Hmap).
  destruct (is_blocked_frame st ip now) as (Hg1 & Hl1 & _).
  subst final subs. cbn [submit_all length replicate].
  unfold check_auth_password.
  destruct (is_blocked st ip now) as [blocked st1] eqn:Hb.
  cbn [fst snd] in *. subst blocked. cbn [orb fst snd].
  destruct (permissive_mode_below_threshold
              (log_event st1 (login_event ip username password)) ip rest)
    as (Hr & Hbl & Hgl & Hlog).
  { cbn [log_event GLOBAL_BLOCKED_IPS]. by rewrite Hg1. }
  { by rewrite counter_log_event. }
  cbn [log_event BLOCKED_IPS GLOBAL_BLOCKED_IPS LOG_QUEUE] in Hbl, Hgl, Hlog.
  rewrite Hr, Hbl, Hgl, Hlog, Hg1, Hl1.
  split; [done|]. split; [done|]. split; [done|]. split; [done|].
  split; [by rewrite <- app_assoc|].
  intros t. rewrite is_blocked_below_threshold; [done| |].
  - by rewrite Hgl, Hg1.
  - unfold counter in *. by rewrite Hbl.
Qed.

Lemma permissive_mode_witness :
  let subs := ("admin", "admin", 100) :: four_failures in
  let final := snd (submit_all true after_five attacker subs) in
  fst (submit_all true after_five attacker subs)
  = replicate (length subs) AUTH_SUCCESSFUL
  ∧ BLOCKED_IPS final = BLOCKED_IPS (snd (is_blocked after_five attacker 100))
  ∧ (BLOCKED_IPS final = BLOCKED_IPS after_five
     ∨ (BLOCKED_IPS final = delete attacker (BLOCKED_IPS after_five)
        ∧ ∃ e, BLOCKED_IPS after_five !! attacker = Some e
               ∧ MAX_ATTEMPTS ≤ attempts e ∧ until e ≤ 100))
  ∧ GLOBAL_BLOCKED_IPS final = GLOBAL_BLOCKED_IPS after_five
  ∧ LOG_QUEUE final
    = LOG_QUEUE after_five ++ map (login_event_of attacker) subs
  ∧ (∀ t, fst (is_blocked final attacker t) = false).
Proof.
  apply (permissive_mode_never_blocks after_five attacker "admin" "admin" 100
           four_failures).
  by vm_compute.
Defined.

Lemma entries_ok_log_event (st : State) (ev : LogEvent) :
  entries_ok st → entries_ok (log_event st ev).
Proof. done. Qed.

Lemma entries_ok_is_blocked (st : State) (ip : string) (now : Z) :
  entries_ok st → entries_ok (snd (is_blocked st ip now)).
Proof.
  intros Hok. unfold is_blocked. case_bool_decide; [done|].
  destruct (BLOCKED_IPS st !! ip) as [e|]; [|done].
  destruct (MAX_ATTEMPTS <=? attempts e); [|done].
  destruct (now <? until e); [done|].
  intros k ek Hk. simpl in Hk. apply lookup_delete_Some in Hk as [_ Hk].
  by apply (Hok k).
Qed.

(** X15. Authentication keeps the block map in order: if every entry
    has between one attempt and the threshold, with [until] at zero
    below the threshold, the same holds after any credential
    submission. The counter of an address never passes the threshold
    through logins. *)
Theorem authentication_keeps_entries_in_order (ALLOW_ALL_CREDS : bool)
    (st : State) (ip username password : string) (now : Z) :
  entries_ok st →
  entries_ok
    (snd (check_auth_password ALLOW_ALL_CREDS st ip username password now)).
Proof.
  intros Hok. unfold check_auth_password.
  pose proof (entries_ok_is_blocked st ip now Hok) as Hok1.
  pose proof (is_blocked_frame st ip now) as (Hg1 & _ & _).
  destruct (is_blocked st ip now) as [blocked st1] eqn:Hb. simpl in *.
  destruct blocked; [done|].
  destruct (ALLOW_ALL_CREDS || is_bait_cred username password); [done|].
  simpl.
  assert (counter st1 ip < MAX_ATTEMPTS
          ∧ (counter st1 ip = 0
             ∨ until (default (mkEntry 0 0) (BLOCKED_IPS st1 !! ip)) = 0))
    as [Hc Hu].
  { revert Hb. unfold is_blocked, counter. case_bool_decide; [done|].
    destruct (BLOCKED_IPS st !! ip) as [e|] eqn:He.
    - destruct (MAX_ATTEMPTS <=? attempts e) eqn:Ha.
      + destruct (now <? until e); [done|]. intros [= <-]. simpl.
        rewrite lookup_delete_eq. simpl. unfold MAX_ATTEMPTS. split; [lia|by left].
      + intros [= <-]. rewrite He. simpl. apply Z.leb_gt in Ha.
        split; [done|]. right. by apply (Hok ip e He).
    - intros [= <-]. rewrite He. simpl. unfold MAX_ATTEMPTS. split; [lia|by left]. }
  assert (0 ≤ counter st1 ip) as Hc0.
  { unfold counter. destruct (BLOCKED_IPS st1 !! ip) as [e|] eqn:He; simpl; [|lia].
    destruct (Hok1 ip e He) as [? _]. lia. }
  set (st2 := log_event st1 (login_event ip username password)).
  intros k ek Hk.
  destruct (decide (k = ip)) as [->|Hne].
  - destruct (decide (MAX_ATTEMPTS ≤ counter st2 ip + 1)) as [Hth|Hth].
    + rewrite block_ip_threshold in Hk by done. simpl in Hk.
      rewrite lookup_insert_eq in Hk. injection Hk as <-. simpl.
      subst st2. rewrite counter_log_event in *. lia.
    + rewrite block_ip_below in Hk by lia. simpl in Hk.
      rewrite lookup_insert_eq in Hk. injection Hk as <-. simpl.
      subst st2. rewrite counter_log_event in *. split; [lia|]. intros _.
      destruct Hu as [Hu|Hu]; [|done].
      unfold counter in Hu. destruct (BLOCKED_IPS st1 !! ip) as [e|] eqn:He;
        [|done]. destruct (Hok1 ip e He) as [? _]. simpl in Hu. lia.
  - destruct (block_ip_frame st2 ip now) as (_ & Hother).
    rewrite Hother in Hk by done. by apply (Hok1 k).
Qed.

Lemma authentication_keeps_entries_witness :
  entries_ok (snd (check_auth_password false st0 attacker "admin" "x" 3)).
Proof.
  apply (authentication_keeps_entries_in_order false st0 attacker "admin"
           "x" 3).
  intros ip e He. by vm_compute in He.
Defined.

(** *** Line editing *)

Lemma append_empty_r (s : string) : s +:+ "" = s.
Proof.
  induction s as [|c s IH]; [done|].
  change (String c s +:+ "") with (String c (s +:+ "")). by rewrite IH.
Qed.

Lemma feed_typed_char (notice_sent : Notice)
    (CONTROLLER_URL : Controller) (ip : string)
    (st : State) (ss : Session) (now : Z) (c : ascii) :
  typed_char c →
  feed_char notice_sent CONTROLLER_URL ip st ss now c
  = (st,
     mkSession (simulator ss) (buf ss +:+ String c "") (session_history ss)
               (chan ss ++ [String c ""]) (posted ss),
     Continue).
Proof.
  intros (H1 & H2 & H3 & H4). unfold feed_char.
  by rewrite !(proj2 (Ascii.eqb_neq _ _)) by done.
Qed.

(** X17. Typed characters are buffered and echoed: characters that are
    neither a line end nor a backspace are added to the buffer in order
    and sent back one by one; nothing is executed, posted or logged. *)
Theorem typed_text_is_buffered_and_echoed (notice_sent : Notice)
    (CONTROLLER_URL : Controller)
    (ip : string) (st : State) (ss : Session) (now : Z)
    (chars : list ascii) :
  Forall typed_char chars →
  feed notice_sent CONTROLLER_URL ip st ss now chars
  = (st,
     mkSession (simulator ss) (buf ss +:+ text_of chars) (session_history ss)
               (chan ss ++ map (λ c, String c "") chars) (posted ss),
     Continue).
Proof.
  revert ss. induction chars as [|c chars IH]; intros ss Hall.
  - simpl. rewrite append_empty_r, app_nil_r. by destruct ss.
  - apply Forall_cons in Hall as [Hc Hall]. cbn [feed].
    rewrite feed_typed_char by done. rewrite IH by done. simpl.
    rewrite append_assoc_s, <- app_assoc. reflexivity.
Qed.

Lemma typed_text_witness :
  feed notice_delivered None attacker st0 (typed "ls") 0 (list_ascii_of_string " -la")
  = (st0,
     mkSession (simulator (typed "ls"))
               (buf (typed "ls") +:+ text_of (list_ascii_of_string " -la"))
               (session_history (typed "ls"))
               (chan (typed "ls")
                ++ map (λ c, String c "") (list_ascii_of_string " -la"))
               (posted (typed "ls")),
     Continue).
Proof.
  apply (typed_text_is_buffered_and_echoed notice_delivered None attacker st0 (typed "ls") 0
           (list_ascii_of_string " -la")).
  repeat constructor; by vm_compute.
Defined.

Lemma drop_last_snoc (s : string) (c : ascii) :
  PyStr.drop_last (s +:+ String c "") = s.
Proof.
  induction s as [|a s IH]; [done|].
  change (String a s +:+ String c "") with (String a (s +:+ String c "")).
  simpl. rewrite IH. destruct s; [done|].
  by change (String a0 s +:+ String c "") with (String a0 (s +:+ String c "")).
Qed.

(** X18. A backspace takes back the last typed character: after a typed
    character and a backspace ([\x7f] or [\x08]) the buffer is what it
    was, and nothing was executed, posted or logged; on an empty buffer
    a backspace does nothing and sends nothing. *)
Theorem backspace_takes_back_the_last_character (notice_sent : Notice)
    (CONTROLLER_URL : Controller) (ip : string) (st : State) (ss : Session)
    (now : Z) (c erase : ascii) :
  typed_char c → erase = DEL ∨ erase = BS →
  (∃ sent,
     feed notice_sent CONTROLLER_URL ip st ss now [c; erase]
     = (st,
        mkSession (simulator ss) (buf ss) (session_history ss) sent
                  (posted ss),
        Continue))
  ∧ (buf ss = "" →
     feed_char notice_sent CONTROLLER_URL ip st ss now erase = (st, ss, Continue)).
Proof.
  intros Hc Herase.
  assert (feed_char notice_sent CONTROLLER_URL ip st
            (mkSession (simulator ss) (buf ss +:+ String c "")
               (session_history ss) (chan ss ++ [String c ""]) (posted ss))
            now erase
          = (st,
             mkSession (simulator ss) (buf ss) (session_history ss)
               ((chan ss ++ [String c ""])
                ++ [String BS (String " " (String BS ""))]) (posted ss),
             Continue)) as Hback.
  { unfold feed_char. cbn [buf simulator session_history chan posted].
    rewrite drop_last_snoc.
    destruct Herase as [-> | ->]; simpl;
      (destruct (buf ss); [by rewrite append_empty|done]). }
  split.
  - eexists. cbn [feed]. rewrite feed_typed_char by done. by rewrite Hback.
  - intros Hbuf. unfold feed_char. rewrite Hbuf.
    by destruct Herase as [-> | ->].
Qed.

Lemma backspace_witness :
  (∃ sent,
     feed notice_delivered None attacker st0 (typed "exi") 0 ["x"%char; DEL]
     = (st0,
        mkSession (simulator (typed "exi")) (buf (typed "exi"))
                  (session_history (typed "exi")) sent (posted (typed "exi")),
        Continue))
  ∧ (buf (typed "exi") = "" →
     feed_char notice_delivered None attacker st0 (typed "exi") 0 DEL
     = (st0, typed "exi", Continue)).
Proof.
  apply (backspace_takes_back_the_last_character notice_delivered None attacker st0
           (typed "exi") 0 "x"%char DEL).
  - by vm_compute.
  - by left.
Defined.

(** X19. An empty line does nothing: when the buffer is empty or all
    white space, Enter executes no command, posts no request, adds
    nothing to the history or to the log, and only echoes the line end,
    empties the buffer and sends the prompt again. *)
Theorem empty_line_only_prompts_again (notice_sent : Notice)
    (CONTROLLER_URL : Controller)
    (ip : string) (st : State) (ss : Session) (now : Z) :
  all_space (buf ss) →
  on_enter notice_sent CONTROLLER_URL ip st ss now
  = (st,
     mkSession (simulator ss) "" (session_history ss)
               (chan ss ++ [CRLF; prompt (simulator ss)]) (posted ss),
     Continue).
Proof.
  intros Hs. unfold on_enter. rewrite strip_all_space by done.
  simpl. by rewrite <- app_assoc.
Qed.

Lemma empty_line_witness :
  on_enter notice_delivered (Some oracle_blocks) attacker st0 (typed "  ") 0
  = (st0,
     mkSession (simulator (typed "  ")) "" (session_history (typed "  "))
               (chan (typed "  ") ++ [CRLF; prompt (simulator (typed "  "))])
               (posted (typed "  ")),
     Continue).
Proof.
  apply (empty_line_only_prompts_again notice_delivered (Some oracle_blocks) attacker st0
           (typed "  ") 0).
  by vm_compute.
Defined.

(** X20. Input after the end of the session is ignored: once a command
    has ended the loop ([exit], a BLOCK verdict, or an exception), the
    characters that follow it in the same input are not read: no further
    command is executed, posted or logged. *)
Theorem input_after_the_end_is_ignored (notice_sent : Notice)
    (CONTROLLER_URL : Controller)
    (ip : string) (st : State) (ss : Session) (now : Z)
    (chars more : list ascii) :
  snd (feed notice_sent CONTROLLER_URL ip st ss now chars) ≠ Continue →
  feed notice_sent CONTROLLER_URL ip st ss now (chars ++ more)
  = feed notice_sent CONTROLLER_URL ip st ss now chars.
Proof.
  intros Hstop. rewrite feed_app.
  by destruct (feed notice_sent CONTROLLER_URL ip st ss now chars) as [[st' ss'] []].
Qed.

Lemma input_after_the_end_witness :
  feed notice_delivered None attacker st0 (new_session init) 0
    (lines ["exit"] ++ lines ["cat /etc/shadow"])
  = feed notice_delivered None attacker st0 (new_session init) 0 (lines ["exit"]).
Proof.
  apply (input_after_the_end_is_ignored notice_delivered None attacker st0 (new_session init)
           0 (lines ["exit"]) (lines ["cat /etc/shadow"])).
  by vm_compute.
Defined.

(** *** Decoys from the oracle *)

(** X21. A decoy the oracle asks for is there before the command runs:
    on a reply with status 200 whose action is not BLOCK and whose
    [dynamic_decoy] has a true [should_deploy], a text [path] that is
    not empty and a true [content], the command is executed on the
    filesystem with the decoy deployed, so that a [cat] of the path in
    this very command prints the content, and the file is in the
    session's filesystem afterwards. *)
Theorem allowed_decoy_is_deployed_before_the_command (notice_sent : Notice)
    (oracle : EvalPayload → OracleReply) (ip : string) (st : State)
    (ss : Session) (now : Z) (decision action decoy should_deploy : json)
    (path : string) (content : json) :
  let cmd := PyStr.strip PyStr.is_space (buf ss) in
  let payload :=
    make_payload ip cmd (session_history ss ++ [mkHist cmd]) (simulator ss) in
  let deployed :=
    state_of (deploy_decoy (sim_fs (simulator ss)) path content) in
  cmd ≠ "" →
  oracle payload = Response 200 (Some decision) →
  get decision "action" (JStr "ALLOW") = Some action →
  is_BLOCK action = false →
  get decision "dynamic_decoy" (JObj []) = Some decoy →
  get decoy "should_deploy" JNull = Some should_deploy →
  truthy should_deploy = true →
  get decoy "path" JNull = Some (JStr path) → path ≠ "" →
  get decoy "content" JNull = Some content → truthy content = true →
  on_enter notice_sent (Some oracle) ip st ss now
  = run_command ip st
      (mkSession (with_fs (simulator ss) deployed) (buf ss)
                 (session_history ss ++ [mkHist cmd]) (chan ss ++ [CRLF])
                 (posted ss ++ [payload]))
      cmd
  ∧ sim_fs (simulator (snd (fst (on_enter notice_sent (Some oracle) ip st ss now))))
    = deployed
  ∧ get_file_content deployed path = Some content
  ∧ (∀ arg rest,
       resolve_path (current_path (simulator ss)) arg = path →
       _cmd_cat (with_fs (simulator ss) deployed) (arg :: rest) = content).
Proof.
  intros cmd payload deployed Hcmd Hreply Hact Hnb Hdecoy Hsd Hsdt Hpath Hp
         Hcontent Hct.
  assert (on_enter notice_sent (Some oracle) ip st ss now
          = run_command ip st
              (mkSession (with_fs (simulator ss) deployed) (buf ss)
                 (session_history ss ++ [mkHist cmd]) (chan ss ++ [CRLF])
                 (posted ss ++ [payload]))
              cmd) as Hstep.
  { unfold on_enter. fold cmd.
    assert (PyStr.eqb cmd "" = false) as ->
      by (by apply bool_decide_eq_false_2).
    fold payload. rewrite Hreply. simpl.
    rewrite Hact, Hnb, Hdecoy, Hsd, Hpath, Hcontent, Hsdt, Hct. simpl.
    by rewrite bool_decide_eq_false_2. }
  split; [done|]. split.
  { rewrite Hstep.
    match goal with |- context [run_command ?a ?b ?c ?d] =>
      destruct (run_command_facts a b c d) as (-> & _) end.
    by rewrite execute_command_keeps_fs. }
  assert (get_file_content deployed path = Some content) as Hread.
  { unfold get_file_content. subst deployed.
    by rewrite deploy_file_contents, lookup_insert_eq. }
  split; [done|]. intros arg rest Harg. unfold _cmd_cat.
  cbn [with_fs current_path sim_fs]. rewrite Harg, Hread.
  by destruct content.
Qed.

Lemma allowed_decoy_witness :
  let ss := typed "cat /var/www/config.php" in
  let cmd := PyStr.strip PyStr.is_space (buf ss) in
  let payload :=
    make_payload attacker cmd (session_history ss ++ [mkHist cmd])
                 (simulator ss) in
  let deployed :=
    state_of (deploy_decoy (sim_fs (simulator ss)) "/var/www/config.php"
                (JStr "DB_PASS=...")) in
  on_enter notice_delivered (Some oracle_plants) attacker st0 ss 0
  = run_command attacker st0
      (mkSession (with_fs (simulator ss) deployed) (buf ss)
                 (session_history ss ++ [mkHist cmd]) (chan ss ++ [CRLF])
                 (posted ss ++ [payload]))
      cmd
  ∧ sim_fs (simulator (snd (fst (on_enter notice_delivered (Some oracle_plants) attacker st0
                                   ss 0))))
    = deployed
  ∧ get_file_content deployed "/var/www/config.php"
    = Some (JStr "DB_PASS=...")
  ∧ (∀ arg rest,
       resolve_path (current_path (simulator ss)) arg
       = "/var/www/config.php" →
       _cmd_cat (with_fs (simulator ss) deployed) (arg :: rest)
       = JStr "DB_PASS=...").
Proof.
  apply (allowed_decoy_is_deployed_before_the_command notice_delivered oracle_plants attacker
           st0 (typed "cat /var/www/config.php") 0 decoy_reply
           (JStr "ALLOW")
           (JObj [("should_deploy", JBool true);
                  ("path", JStr "/var/www/config.php");
                  ("content", JStr "DB_PASS=...")])
           (JBool true) "/var/www/config.php" (JStr "DB_PASS=...")).
  all: by vm_compute.
Defined.

Lemma evaluate_reply_cases (fs0 fs' : FakeFilesystem) (reply : OracleReply) :
  evaluate_reply fs0 reply = Some fs' →
  fs' = fs0 ∨ ∃ path content, fs' = state_of (deploy_decoy fs0 path content).
Proof.
  unfold evaluate_reply. intros H.
  repeat case_match; simplify_eq; eauto.
Qed.

Lemma with_fs_ok (sim : CommandSimulator) (fs' : FakeFilesystem) :
  simulator_ok sim →
  fs' = sim_fs sim
  ∨ (∃ path content, fs' = state_of (deploy_decoy (sim_fs sim) path content)) →
  simulator_ok (with_fs sim fs').
Proof.
  intros [Hreach Hdir] [-> | (path & content & ->)]; split;
    cbn [with_fs sim_fs current_path]; try done.
  - by constructor.
  - by apply deploy_decoy_keeps_is_dir.
Qed.

Lemma on_enter_ok (notice_sent : Notice)
    (CONTROLLER_URL : Controller) (ip : string) (st : State)
    (ss : Session) (now : Z) :
  simulator_ok (simulator ss) →
  simulator_ok
    (simulator (snd (fst (on_enter notice_sent CONTROLLER_URL ip st ss now)))).
Proof.
  intros Hok. unfold on_enter. destruct (PyStr.eqb _ ""); [done|].
  destruct CONTROLLER_URL as [oracle|].
  - destruct (evaluate_reply _ _) as [fs'|] eqn:Hev.
    + match goal with |- context [run_command ?a ?b ?c ?d] =>
        destruct (run_command_facts a b c d) as (-> & _) end.
      cbn [simulator]. apply execute_command_ok, with_fs_ok; [done|].
      by apply evaluate_reply_cases in Hev.
    + destruct (notice_sent _); [done|].
      match goal with |- context [run_command ?a ?b ?c ?d] =>
        destruct (run_command_facts a b c d) as (-> & _) end.
      by apply execute_command_ok.
  - match goal with |- context [run_command ?a ?b ?c ?d] =>
      destruct (run_command_facts a b c d) as (-> & _) end.
    by apply execute_command_ok.
Qed.

Lemma feed_char_ok (notice_sent : Notice)
    (CONTROLLER_URL : Controller) (ip : string) (st : State)
    (ss : Session) (now : Z) (char : ascii) :
  simulator_ok (simulator ss) →
  simulator_ok
    (simulator (snd (fst (feed_char notice_sent CONTROLLER_URL ip st ss now char)))).
Proof.
  intros Hok. unfold feed_char. destruct (_ || _); [by apply on_enter_ok|].
  destruct (_ || _); [by destruct (buf ss) | done].
Qed.

(** X22. Throughout a session the current directory exists: starting
    from a simulator whose current directory is a directory of a
    filesystem the honeypot can hold, whatever is typed and whatever the
    oracle answers (decoys included), the simulator is again such a one
    after the input. *)
Theorem session_keeps_its_current_directory (notice_sent : Notice)
    (CONTROLLER_URL : Controller)
    (ip : string) (st : State) (ss : Session) (now : Z)
    (chars : list ascii) :
  simulator_ok (simulator ss) →
  simulator_ok
    (simulator (snd (fst (feed notice_sent CONTROLLER_URL ip st ss now chars)))).
Proof.
  revert st ss. induction chars as [|c chars IH]; intros st ss Hok; [done|].
  cbn [feed].
  pose proof (feed_char_ok notice_sent CONTROLLER_URL ip st ss now c Hok) as Hc.
  destruct (feed_char notice_sent CONTROLLER_URL ip st ss now c) as [[st' ss'] []];
    simpl in *; [by apply IH|done|done].
Qed.

Lemma session_keeps_its_current_directory_witness :
  simulator_ok
    (simulator
       (snd (fst (feed notice_delivered (Some oracle_plants) attacker st0 (new_session init) 0
                    (lines ["cd /var/www"; "ls"]))))).
Proof.
  apply (session_keeps_its_current_directory notice_delivered (Some oracle_plants) attacker
           st0 (new_session init) 0 (lines ["cd /var/www"; "ls"])).
  split; [constructor | by vm_compute].
Defined.

End HoneypotExtra.

(** * Properties of the blocklist sync, the log writer and the prompt *)

Module PipelineProps.
Import Json Deception Honeypot Scenario Shapes Pipeline.
Import HoneypotProps.

(** *** Blocklist sync *)

Lemma hashable_texts (ips : list string) :
  forallb hashable (JStr <$> ips) = true.
Proof. induction ips as [|ip ips IH]; [done | by simpl]. Qed.

Lemma text_items_texts (ips : list string) : text_items (JStr <$> ips) = ips.
Proof.
  unfold text_items. induction ips as [|ip ips IH]; [done|].
  csimpl. by f_equal.
Qed.

Lemma set_of_texts (ips : list string) :
  set_of (JArr (JStr <$> ips)) = Some (list_to_set ips).
Proof. unfold set_of. by rewrite hashable_texts, text_items_texts. Qed.

(** X23. A sync replaces the global set, it does not merge: after a
    cycle answered 200 with a list of addresses, an address is in the
    global set exactly when it is in the list, whatever the set held
    before, and the block map and the log queue are untouched. A cycle
    that fails (no URL, an exception, another status, a body that is not
    JSON or that [set()] rejects) leaves the state as it is. *)
Theorem sync_replaces_the_global_set (st : State) (ips : list string) :
  let synced :=
    sync_cycle (Some (Response 200 (Some (JArr (JStr <$> ips))))) st in
  (∀ ip, ip ∈ GLOBAL_BLOCKED_IPS synced ↔ ip ∈ ips)
  ∧ BLOCKED_IPS synced = BLOCKED_IPS st
  ∧ LOG_QUEUE synced = LOG_QUEUE st
  ∧ (∀ reply,
       reply = None ∨ reply = Some Timeout ∨ reply = Some RequestFailed
       ∨ (∃ status_code body,
            reply = Some (Response status_code body)
            ∧ (status_code ≠ 200 ∨ body = None
               ∨ ∃ value, body = Some value ∧ set_of value = None)) →
       sync_cycle reply st = st).
Proof.
  unfold sync_cycle at 1. rewrite set_of_texts. simpl.
  split; [intros ip; apply elem_of_list_to_set|]. split; [done|].
  split; [done|].
  intros reply [-> | [-> | [-> | (code & body & -> & Hbad)]]]; try done.
  simpl. destruct body as [value|]; [|done].
  destruct (code =? 200) eqn:Hcode; [|done].
  apply Z.eqb_eq in Hcode.
  destruct Hbad as [Hbad | [Hbad | (v & [= <-] & ->)]]; done.
Qed.

(** X24. A ban written through on a BLOCK verdict lasts only until the
    next sync unless the collector lists it: after a verdict whose
    termination notice went through the address is blocked at once, and
    for an address still below the attempt threshold a sync answered
    with a list of addresses leaves it blocked exactly when the list
    has it. *)
Theorem write_through_ban_lasts_until_the_next_sync (notice_sent : Notice)
    (oracle : EvalPayload → OracleReply) (ip : string) (st : State)
    (ss : Session) (now : Z) (decision : json) (ips : list string) :
  let cmd := PyStr.strip PyStr.is_space (buf ss) in
  let payload :=
    make_payload ip cmd (session_history ss ++ [mkHist cmd]) (simulator ss) in
  let banned := fst (fst (on_enter notice_sent (Some oracle) ip st ss now)) in
  let synced :=
    sync_cycle (Some (Response 200 (Some (JArr (JStr <$> ips))))) banned in
  cmd ≠ "" →
  oracle payload = Response 200 (Some decision) →
  get decision "action" (JStr "ALLOW") = Some (JStr "BLOCK") →
  notice_sent payload = true →
  counter st ip + 1 < MAX_ATTEMPTS →
  (∀ t, fst (is_blocked banned ip t) = true)
  ∧ (∀ t, fst (is_blocked synced ip t) = true ↔ ip ∈ ips).
Proof.
  intros cmd payload banned synced Hcmd Hreply Hact Hsent Hc.
  assert (banned = add_global (block_ip st ip now) ip) as Hbanned.
  { subst banned. unfold on_enter. fold cmd.
    assert (PyStr.eqb cmd "" = false) as ->
      by (by apply bool_decide_eq_false_2).
    fold payload. by rewrite Hreply, (evaluate_reply_block _ _ Hact), Hsent. }
  split.
  - intros t. rewrite Hbanned, is_blocked_global; [done|].
    apply elem_of_union. right. by apply elem_of_singleton.
  - intros t. unfold synced, sync_cycle. rewrite set_of_texts. simpl.
    unfold is_blocked. simpl. case_bool_decide as Hin.
    + apply elem_of_list_to_set in Hin. by split.
    + rewrite elem_of_list_to_set in Hin.
      assert (BLOCKED_IPS banned !! ip
              = Some (mkEntry (counter st ip + 1)
                        (until (default (mkEntry 0 0)
                                  (BLOCKED_IPS st !! ip))))) as ->.
      { rewrite Hbanned. simpl. rewrite block_ip_below by done. simpl.
        apply lookup_insert_eq. }
      simpl. rewrite (proj2 (Z.leb_gt _ _)) by done. by split.
Qed.

Lemma write_through_ban_witness :
  let ss := typed "rm -rf /" in
  let banned :=
    fst (fst (on_enter notice_delivered (Some oracle_blocks) attacker st0 ss 10)) in
  let synced :=
    sync_cycle (Some (Response 200 (Some (JArr (JStr <$> ["10.0.0.5"])))))
               banned in
  (∀ t, fst (is_blocked banned attacker t) = true)
  ∧ (∀ t, fst (is_blocked synced attacker t) = true
          ↔ attacker ∈ ["10.0.0.5"]).
Proof.
  apply (write_through_ban_lasts_until_the_next_sync notice_delivered
           oracle_blocks attacker
           st0 (typed "rm -rf /") 10
           (JObj [("action", JStr "BLOCK");
                  ("reason", JStr "destructive command");
                  ("risk_score", JNum 95)])
           ["10.0.0.5"]).
  all: by vm_compute.
Defined.

(** X25. The collector's blocklist reaches the honeypot as it is: a sync
    answered with [get_blocklist] makes the global set equal to the
    collector's set; [unblock_ip] removes the address and no other,
    doing nothing the second time, so that after the next sync the
    address is no longer in the global set. *)
Theorem collector_blocklist_round_trip (st : State) (BLOCKED : gset string)
    (ip : string) :
  GLOBAL_BLOCKED_IPS
    (sync_cycle (Some (Response 200 (Some (get_blocklist BLOCKED)))) st)
  = BLOCKED
  ∧ (ip ∉ GLOBAL_BLOCKED_IPS
            (sync_cycle
               (Some (Response 200
                        (Some (get_blocklist (unblock_ip BLOCKED ip))))) st))
  ∧ (∀ other, other ≠ ip → other ∈ unblock_ip BLOCKED ip ↔ other ∈ BLOCKED)
  ∧ unblock_ip (unblock_ip BLOCKED ip) ip = unblock_ip BLOCKED ip.
Proof.
  assert (∀ B : gset string,
            GLOBAL_BLOCKED_IPS
              (sync_cycle (Some (Response 200 (Some (get_blocklist B)))) st)
            = B) as Hsync.
  { intros B. unfold sync_cycle, get_blocklist. rewrite set_of_texts. simpl.
    apply set_eq. intros x. rewrite elem_of_list_to_set.
    apply elem_of_elements. }
  assert (ip ∉ unblock_ip BLOCKED ip) as Hout.
  { unfold unblock_ip. case_bool_decide as Hin; [|done].
    intros [_ Hnot]%elem_of_difference. apply Hnot. by apply elem_of_singleton. }
  split; [apply Hsync|]. split; [by rewrite Hsync|]. split.
  - intros other Hne. unfold unblock_ip. case_bool_decide; [|done].
    rewrite elem_of_difference, elem_of_singleton. split; [by intros [? _]|done].
  - unfold unblock_ip at 1. by rewrite bool_decide_eq_false_2.
Qed.

(** *** Log writer *)

Lemma write_log_spec (SENSOR_ID : string) (configured : bool) (w : Stores)
    (item : LogEvent * PostOutcome) :
  usable (local w) → snd item ≠ PostOtherException →
  let w' :=
    _write_log SENSOR_ID true true
      (if configured then Some (snd item) else None) w (fst item) in
  usable (local w')
  ∧ accepted w'
    = accepted w ++ stamped SENSOR_ID (List.filter (taken configured) [item])
  ∧ logs_of (local w')
    = logs_of (local w)
      ++ stamped SENSOR_ID
           (List.filter (λ i, negb (taken configured i)) [item]).
Proof.
  intros [Hread Hlist] Hpost. destruct item as [ev outcome]. simpl in *.
  unfold _write_log, taken, stamped, usable.
  destruct (local w) eqn:Hl; [|done| |done|];
    destruct configured; simpl;
    try (destruct outcome as [code| |]; [destruct (code =? 200)| |done]);
    simpl; rewrite ?Hl, ?app_nil_r; simpl; done.
Qed.

(** X26. No entry is lost while the local file is usable: when the file
    is absent, not JSON or a list (it is neither unreadable nor JSON of
    another kind), every write to it succeeds ([open] and [json.dump]
    both), and no post fails outside [requests], draining the queue
    puts every entry in exactly one place, in queue order: with the
    collector if it answered 200, at the end of the local file
    otherwise (all of them there when no collector is configured). A
    file that was not JSON restarts from the first entry stored. *)
Theorem no_log_entry_is_lost (SENSOR_ID : string) (configured : bool)
    (w : Stores) (queue : list (LogEvent * PostOutcome)) :
  local w ≠ Unreadable → local w ≠ NotAList →
  Forall (λ item, snd item ≠ PostOtherException) queue →
  let w' := drain SENSOR_ID true true configured w queue in
  accepted w'
  = accepted w ++ stamped SENSOR_ID (List.filter (taken configured) queue)
  ∧ logs_of (local w')
    = logs_of (local w)
      ++ stamped SENSOR_ID (List.filter (λ i, negb (taken configured i)) queue).
Proof.
  intros Hread Hlist. assert (usable (local w)) as Hlocal by done.
  clear Hread Hlist. revert w Hlocal.
  induction queue as [|item queue IH]; intros w Hlocal Hposts.
  - simpl. by rewrite !app_nil_r.
  - apply Forall_cons in Hposts as [Hpost Hposts].
    destruct (write_log_spec SENSOR_ID configured w item Hlocal Hpost)
      as (Hl & Ha & Hf).
    destruct item as [ev outcome]. cbn [drain]. simpl in Hl, Ha, Hf.
    destruct (IH _ Hl Hposts) as (Ha' & Hf').
    cbn zeta in *. rewrite Ha', Hf', Ha, Hf.
    cbn [List.filter]. unfold stamped.
    destruct (taken configured (ev, outcome)); simpl;
      rewrite <- ?app_assoc; simpl; by rewrite ?app_nil_r.
Qed.

Lemma no_log_entry_is_lost_witness :
  let queue :=
    [ (login_event attacker "root" "toor", PostStatus 200);
      (block_event attacker, PostRequestException);
      (login_event attacker "a" "b", PostStatus 500) ] in
  let w' := drain "sensor-1" true true true (mkStores NotJson []) queue in
  accepted w'
  = accepted (mkStores NotJson [])
    ++ stamped "sensor-1" (List.filter (taken true) queue)
  ∧ logs_of (local w')
    = logs_of (local (mkStores NotJson []))
      ++ stamped "sensor-1" (List.filter (λ i, negb (taken true i)) queue).
Proof.
  apply (no_log_entry_is_lost "sensor-1" true (mkStores NotJson [])
           [ (login_event attacker "root" "toor", PostStatus 200);
             (block_event attacker, PostRequestException);
             (login_event attacker "a" "b", PostStatus 500) ]).
  - done.
  - done.
  - repeat constructor; done.
Defined.

(** X27. An unusable local file loses the fallback: when the file holds
    JSON that is not a list, cannot be read, or cannot be opened for
    writing, draining the queue leaves the file as it is, and the
    collector has the entries it answered 200 to and no other: every
    other entry is in neither place. *)
Theorem unusable_local_file_loses_entries (SENSOR_ID : string)
    (writable dump_ok configured : bool) (w : Stores)
    (queue : list (LogEvent * PostOutcome)) :
  local w = NotAList ∨ local w = Unreadable ∨ writable = false →
  let w' := drain SENSOR_ID writable dump_ok configured w queue in
  local w' = local w
  ∧ accepted w'
    = accepted w ++ stamped SENSOR_ID (List.filter (taken configured) queue).
Proof.
  revert w. induction queue as [|[ev outcome] queue IH]; intros w Hbad.
  - simpl. by rewrite app_nil_r.
  - cbn [drain].
    set (w1 := _write_log SENSOR_ID writable dump_ok
                 (if configured then Some outcome else None) w ev).
    assert (local w1 = local w
            ∧ accepted w1
              = accepted w
                ++ stamped SENSOR_ID (List.filter (taken configured) [(ev, outcome)]))
      as [Hl Ha].
    { subst w1. unfold _write_log, taken.
      assert (_write_local writable dump_ok (local w) (mkStamped ev SENSOR_ID)
              = local w) as Hsame.
      { destruct Hbad as [-> | [-> | ->]]; [done | done |].
        by destruct (local w). }
      destruct configured; simpl; rewrite ?Hsame.
      - destruct outcome as [code| |]; simpl; rewrite ?app_nil_r; try done.
        destruct (code =? 200); simpl; by rewrite ?app_nil_r.
      - by rewrite app_nil_r. }
    destruct (IH w1) as (Hl' & Ha'); [by rewrite Hl|].
    cbn zeta. rewrite Hl', Ha', Hl, Ha.
    split; [done|]. cbn [List.filter]. unfold stamped.
    destruct (taken configured (ev, outcome)); simpl;
      rewrite <- ?app_assoc; simpl; by rewrite ?app_nil_r.
Qed.

Lemma unusable_local_file_witness :
  let queue :=
    [ (login_event attacker "root" "toor", PostStatus 401);
      (block_event attacker, PostStatus 200) ] in
  let w' := drain "sensor-1" true true true (mkStores NotAList []) queue in
  local w' = local (mkStores NotAList [])
  ∧ accepted w'
    = accepted (mkStores NotAList [])
      ++ stamped "sensor-1" (List.filter (taken true) queue).
Proof.
  apply (unusable_local_file_loses_entries "sensor-1" true true true
           (mkStores NotAList [])
           [ (login_event attacker "root" "toor", PostStatus 401);
             (block_event attacker, PostStatus 200) ]).
  by left.
Defined.

(** *** The history the prompt shows *)

(** X28. The prompt shows at most the last three commands: the history
    kept for the prompt is the end of the history received, of length
    three or the whole if shorter; of the history of a request, whose
    last entry is the command being evaluated, it keeps that command
    last. *)
Theorem prompt_shows_the_last_three_commands
    (history : list HistoryEntry) (current : HistoryEntry) :
  length (recent_history history) = Nat.min 3 (length history)
  ∧ recent_history history `suffix_of` history
  ∧ last (recent_history (history ++ [current])) = Some current.
Proof.
  unfold recent_history. split; [rewrite length_drop; lia|]. split.
  - apply suffix_drop.
  - rewrite length_app. simpl. rewrite drop_app_le by lia.
    by rewrite last_snoc.
Qed.

End PipelineProps.
